(** * ha-tools: the energy export pipeline (cmd/energy.go) and the timestamp
    and attribute helpers it shares with the gps command.

    The Go code is embedded shallowly: closures over local variables become
    functions on an explicit record of those variables, [error] results become
    a sum, the [map[string]time.Time] of watermarks is a [gmap], float64 is
    the IEEE-754 binary64 instance of [SpecFloat]. *)

From Stdlib Require Import ZArith Bool List Ascii String Floats.SpecFloat.
From stdpp Require Import gmap strings list fin_maps pretty.

Open Scope string_scope.
Open Scope Z_scope.

(** ** Machine integers *)

Module GoInt.

(** Go's [int] and [int64] on the platforms the tool is built for: 64-bit
    two's complement.  [wrap64] is the value a mathematical integer has
    after being stored in one. *)
Definition min_int64 : Z := - 2 ^ 63.
Definition max_int64 : Z := 2 ^ 63 - 1.

Definition wrap64 (z : Z) : Z := (z + 2 ^ 63) mod 2 ^ 64 - 2 ^ 63.

Definition in_int64 (z : Z) : Prop := min_int64 <= z <= max_int64.

End GoInt.

(** ** float64 *)

Module Float64.

Definition float64 : Type := spec_float.

Definition prec : Z := 53.
Definition emax : Z := 1024.

Definition add : float64 -> float64 -> float64 := SFadd prec emax.
Definition sub : float64 -> float64 -> float64 := SFsub prec emax.
Definition mul : float64 -> float64 -> float64 := SFmul prec emax.
Definition div : float64 -> float64 -> float64 := SFdiv prec emax.
Definition ltb : float64 -> float64 -> bool := SFltb.
Definition eqb : float64 -> float64 -> bool := SFeqb.

(** The zero value of a float64 variable. *)
Definition zero : float64 := S754_zero false.

(** [float64(n)] for an integer [n]: the nearest binary64, ties to even. *)
Definition of_int (n : Z) : float64 := binary_normalize prec emax n 0 false.

(** [math.IsNaN]. *)
Definition IsNaN (f : float64) : bool :=
  match f with S754_nan => true | _ => false end.

Definition is_finite (f : float64) : bool :=
  match f with S754_zero _ | S754_finite _ _ _ => true | _ => false end.

(** The integer a finite float64 is truncated to (towards zero). *)
Definition trunc (f : float64) : Z :=
  match f with
  | S754_finite s m e =>
      let a := match e with
               | Zneg p => Z.shiftr (Zpos m) (Zpos p)
               | _ => Z.shiftl (Zpos m) e
               end in
      if s then - a else a
  | _ => 0
  end.

(** [int64(f)]: truncation towards zero.  The Go specification leaves the
    result open when the truncated value does not fit (and for NaN and the
    infinities); amd64 then yields the smallest int64, which is what is
    written here.  The theorems below are stated for values that fit. *)
Definition to_int64 (f : float64) : Z :=
  if is_finite f && (GoInt.min_int64 <=? trunc f) && (trunc f <=? GoInt.max_int64)
  then trunc f else GoInt.min_int64.


(** [math.Modf] (the portable implementation in math/modf.go):
<<
    func modf(f float64) (int float64, frac float64) {
        if f < 1 {
            switch {
            case f < 0:  int, frac = Modf(-f); return -int, -frac
            case f == 0: return f, f
            }
            return 0, f
        }
        x := Float64bits(f)
        e := uint(x>>shift)&mask - bias
        if e < 64-12 { x &^= 1<<(64-12-e) - 1 }   // keep the integer bits
        int = Float64frombits(x)
        frac = f - int
        return
    }
>>
    [modf_pos] is the part after the first test, for [f >= 1], an infinity
    or NaN. *)
Definition one : float64 := of_int 1.

Definition modf_pos (f : float64) : float64 * float64 :=
  match f with
  | S754_finite s m e =>
      let int := match e with
                 | Zneg p =>
                     let kept := Z.shiftl (Z.shiftr (Zpos m) (Zpos p)) (Zpos p) in
                     binary_normalize prec emax (if s then - kept else kept) e s
                 | _ => f
                 end in
      (int, sub f int)
  | _ => (f, sub f f)
  end.

Definition Modf (f : float64) : float64 * float64 :=
  if ltb f one then
    if ltb f zero then
      let '(int, frac) :=
        let g := SFopp f in
        if ltb g one then (zero, g) else modf_pos g in
      (SFopp int, SFopp frac)
    else if eqb f zero then (f, f)
    else (zero, f)
  else modf_pos f.

End Float64.

Import Float64.

(** ** time.Time *)

Module GoTime.

(** An instant as the time package keeps it once the monotonic reading is
    absent: whole seconds since January 1, year 1 00:00:00 UTC, and
    nanoseconds within the second.  The location pointer only affects
    printing and is left out; [After], [Equal], [IsZero] and [Truncate] do
    not read it. *)
Record Time : Type := mkTime { sec : Z; nsec : Z }.

#[global] Instance Time_eq_dec : EqDecision Time.
Proof. solve_decision. Defined.

(** [time.Time{}] *)
Definition zeroTime : Time := mkTime 0 0.

(** Seconds from year 1 to 1970: (1969*365 + 1969/4 - 1969/100 + 1969/400) * 86400. *)
Definition unixToInternal : Z := 62135596800.

(** [time.Unix(sec, nsec)]:
<<
    if nsec < 0 || nsec >= 1e9 {
        n := nsec / 1e9
        sec += n
        nsec -= n * 1e9
        if nsec < 0 { nsec += 1e9; sec-- }
    }
    return unixTime(sec, int32(nsec))   // Time{.., sec + unixToInternal, Local}
>>
    Go's [/] truncates towards zero ([Z.quot]). *)
Definition Unix (s ns : Z) : Time :=
  let '(s, ns) :=
    if (ns <? 0) || (ns >=? 1000000000) then
      let n := Z.quot ns 1000000000 in
      let s := GoInt.wrap64 (s + n) in
      let ns := ns - n * 1000000000 in
      if ns <? 0 then (GoInt.wrap64 (s - 1), ns + 1000000000) else (s, ns)
    else (s, ns) in
  mkTime (GoInt.wrap64 (s + unixToInternal)) ns.

Definition IsZero (t : Time) : bool := (sec t =? 0) && (nsec t =? 0).

Definition After (t u : Time) : bool :=
  (sec t >? sec u) || ((sec t =? sec u) && (nsec t >? nsec u)).

Definition Equal (t u : Time) : bool :=
  (sec t =? sec u) && (nsec t =? nsec u).

(** [t.Truncate(time.Minute)]: [t] rounded down to a multiple of one minute
    since the zero time.  The package computes the remainder
    [r = (sec mod 60) * 1e9 + nsec] (made non-negative for negative [sec])
    and returns [t.Add(-r)]. *)
Definition TruncateMinute (t : Time) : Time :=
  mkTime (sec t - sec t mod 60) 0.

Definition le (t u : Time) : Prop := After t u = false.

End GoTime.

Import GoTime.

(** ** database/sql null wrappers *)

Record NullFloat64 : Type := mkNullFloat64 { Float64 : float64; nfValid : bool }.
Record NullString : Type := mkNullString { String_ : string; nsValid : bool }.
Record NullTime : Type := mkNullTime { Time_ : Time; ntValid : bool }.

(** The zero values [sql.NullFloat64{}], [sql.NullString{}], [sql.NullTime{}]. *)
Definition nullFloat64 : NullFloat64 := mkNullFloat64 Float64.zero false.
Definition nullString : NullString := mkNullString EmptyString false.
Definition nullTime : NullTime := mkNullTime zeroTime false.

(** ** Errors

    [errors.New], [fmt.Errorf] with a wrapped cause (the integer operands of
    the format are kept beside it), and errors raised by the libraries and the
    two database servers. *)

Inductive error : Type :=
  | errors_New (msg : string)
  | fmt_Errorf (format : string) (operands : list Z) (cause : error)
  | library_error (msg : string).

Definition result (A : Type) : Type := (error + A)%type.

(** ** strings *)

Module GoStrings.

Definition byte (n : nat) : ascii := ascii_of_nat n.

Definition bytes (l : list nat) : list ascii := List.map byte l.

(** The code points [unicode.IsSpace] accepts, in UTF-8: tab, line feed,
    vertical tab, form feed, carriage return, space, U+0085, U+00A0, U+1680,
    U+2000 to U+200A, U+2028, U+2029, U+202F, U+205F, U+3000. *)
Definition spaceRunes : list (list ascii) :=
  List.map bytes
    (List.app
       [ [9]; [10]; [11]; [12]; [13]; [32]; [194; 133]; [194; 160]; [225; 154; 128] ]
       (List.app
          (List.map (fun b => [226; 128; b]) (seq 128 11))
          [ [226; 128; 168]; [226; 128; 169]; [226; 128; 175]; [226; 129; 159];
            [227; 128; 128] ]))%nat.

Fixpoint stripPrefix (p l : list ascii) : option (list ascii) :=
  match p, l with
  | [], _ => Some l
  | a :: p', b :: l' => if Ascii.eqb a b then stripPrefix p' l' else None
  | _ :: _, [] => None
  end.

(** The input with one leading white-space rune removed, if it has one. *)
Fixpoint dropRune (runes : list (list ascii)) (l : list ascii) : option (list ascii) :=
  match runes with
  | [] => None
  | r :: runes' =>
      match stripPrefix r l with
      | Some l' => Some l'
      | None => dropRune runes' l
      end
  end.

Fixpoint trimLeft (runes : list (list ascii)) (fuel : nat) (l : list ascii) : list ascii :=
  match fuel with
  | O => l
  | S fuel' =>
      match dropRune runes l with
      | Some l' => trimLeft runes fuel' l'
      | None => l
      end
  end.

(** [strings.TrimSpace]: leading and trailing white space removed.  The
    trailing side is the leading side of the reversed bytes, matched against
    the reversed encodings. *)
Definition TrimSpace (s : string) : string :=
  let l := list_ascii_of_string s in
  let l := trimLeft spaceRunes (List.length l) l in
  let r := trimLeft (List.map (@List.rev ascii) spaceRunes) (List.length l) (List.rev l) in
  string_of_list_ascii (List.rev r).

(** [strings.ToLower] on the bytes 'A' to 'Z'.  Bytes from 0x80 on are left
    as they are: the full function rewrites them into other bytes from 0x80
    on, except that U+0130 and U+212A become 'i' and 'k'; neither letter occurs
    in [_voltage] or [_current], and every string containing
    [_current_consumption] contains [_current], so [needsMinuteAverage] below
    is not affected. *)
Definition lowerByte (c : ascii) : ascii :=
  let n := nat_of_ascii c in
  if ((65 <=? n) && (n <=? 90))%nat then ascii_of_nat (n + 32) else c.

Fixpoint ToLower (s : string) : string :=
  match s with
  | EmptyString => EmptyString
  | String c r => String (lowerByte c) (ToLower r)
  end.

(** [strings.Contains] *)
Fixpoint Contains (s substr : string) : bool :=
  String.prefix substr s ||
  match s with
  | EmptyString => false
  | String _ r => Contains r substr
  end.

(** [strings.ReplaceAll(s, old, new)] for a non-empty [old], the only kind
    the code passes: the occurrences of [old] are taken from the left and do
    not overlap.  [skip] counts the bytes of the occurrence just replaced that
    are still to be passed over.  (An empty [old] matches at every rune
    boundary in the package; [s] is returned for it here.) *)
Fixpoint replaceFrom (old new : string) (skip : nat) (s : string) : string :=
  match s with
  | EmptyString => EmptyString
  | String c r =>
      match skip with
      | S k => replaceFrom old new k r
      | O =>
          if String.prefix old s
          then new ++ replaceFrom old new (String.length old - 1) r
          else String c (replaceFrom old new 0 r)
      end
  end.

Definition ReplaceAll (s old new : string) : string :=
  if decide (old = "") then s else replaceFrom old new 0 s.

(** Every byte is below 0x80.  On such strings [ToLower] above is the whole
    of [strings.ToLower]. *)
Definition isASCII (s : string) : bool :=
  forallb (fun c => (nat_of_ascii c <? 128)%nat) (list_ascii_of_string s).

End GoStrings.

(** ** Decoded JSON values

    The dynamic values [pickFloat] switches on.  [encoding/json] produces
    only nil, bool, float64, string, slices and maps when it decodes into
    [map[string]any]. *)

#[local] Unset Elimination Schemes.

Inductive any : Type :=
  | AnyNil
  | AnyBool (b : bool)
  | AnyFloat64 (f : float64)
  | AnyFloat32 (f : float64)
  | AnyInt (n : Z)
  | AnyInt64 (n : Z)
  | AnyNumber (literal : string)
  | AnyString (s : string)
  | AnySlice (l : list any)
  | AnyMap (m : list (string * any)).

#[local] Set Elimination Schemes.

(** [attrs[key]] on a [map[string]any]: nil when the key is missing (also on
    the nil map). *)
Definition index (attrs : gmap string any) (key : string) : any :=
  default AnyNil (attrs !! key).

(** ** The records of energy.go *)

Record energyMetadata : Type := mkEnergyMetadata {
  Unit : NullString;
  DeviceClass : NullString;
  StateClass : NullString;
  FriendlyName : NullString
}.

Record energyRow : Type := mkEnergyRow {
  stateID : Z;
  entityID : string;
  state : string;
  numericState : NullFloat64;
  meta : energyMetadata;
  lastUpdated : NullTime
}.

(** [energyMetadata{}] *)
Definition emptyMetadata : energyMetadata :=
  mkEnergyMetadata nullString nullString nullString nullString.

Definition energyMinuteAverageTokens : list string :=
  ["_voltage"; "_current"; "_current_consumption"].

Definition needsMinuteAverage (entityID : string) : bool :=
  let lowered := GoStrings.ToLower entityID in
  existsb (fun token => GoStrings.Contains lowered token) energyMinuteAverageTokens.

Definition shouldAggregateRow (row : energyRow) : bool :=
  ntValid (lastUpdated row) && nfValid (numericState row) && needsMinuteAverage (entityID row).

(** ** floatToNullTime (gps.go)

    [.In(loc)] changes the location a time is printed in, not the instant,
    and has no counterpart here. *)

Definition billion : float64 := Float64.of_int 1000000000.

Definition floatToNullTime (v : NullFloat64) : result NullTime :=
  if negb (nfValid v) then inr nullTime
  else
    let '(seconds, frac) := Modf (Float64 v) in
    if IsNaN seconds || IsNaN frac then inl (errors_New "invalid float for timestamp")
    else
      let t := Unix (to_int64 seconds) (to_int64 (Float64.mul frac billion)) in
      if IsZero t then inr nullTime
      else inr (mkNullTime t true).

(** ** The functions that call into strconv and encoding/json

    The two packages are not part of the repository: [ParseFloat s] is
    [strconv.ParseFloat(s, 64)] with [None] for a non-nil error,
    [FormatFloat f] is [strconv.FormatFloat(f, 'f', -1, 64)], and
    [Unmarshal data] is [json.Unmarshal(data, &attrs)] for a fresh
    [attrs map[string]any].  [pickString] is a helper of package [cmd] whose
    file is not among the sources; only its type is used. *)

Section Library.

Variable ParseFloat : string -> option float64.
Variable FormatFloat : float64 -> string.
Variable Unmarshal : string -> result (gmap string any).
Variable pickString : any -> option string.

Definition parseNumericState (raw : string) : NullFloat64 :=
  if decide (raw = "") then nullFloat64
  else
    match ParseFloat raw with
    | None => nullFloat64
    | Some f => mkNullFloat64 f true
    end.

Definition pickFloat (v : any) : option float64 :=
  match v with
  | AnyNil => None
  | AnyFloat64 val => Some val
  | AnyFloat32 val => Some (SFldexp Float64.prec Float64.emax val 0)
  | AnyInt val => Some (Float64.of_int val)
  | AnyInt64 val => Some (Float64.of_int val)
  | AnyNumber val => ParseFloat val
  | AnyString val => if decide (val = "") then None else ParseFloat val
  | _ => None
  end.

Definition nullStringOf (o : option string) (old : NullString) : NullString :=
  match o with
  | Some v => mkNullString v true
  | None => old
  end.

Definition extractEnergyMetadata (raw : string) : result energyMetadata :=
  let meta := emptyMetadata in
  let trimmed := GoStrings.TrimSpace raw in
  if decide (trimmed = "") then inr meta
  else
    match Unmarshal trimmed with
    | inl err => inl (fmt_Errorf "unmarshal shared_attrs: %w" [] err)
    | inr attrs =>
        inr {| Unit := nullStringOf (pickString (index attrs "unit_of_measurement")) (Unit meta);
               DeviceClass := nullStringOf (pickString (index attrs "device_class")) (DeviceClass meta);
               StateClass := nullStringOf (pickString (index attrs "state_class")) (StateClass meta);
               FriendlyName := nullStringOf (pickString (index attrs "friendly_name")) (FriendlyName meta) |}
    end.

Definition nullFloat64Of (o : option float64) : NullFloat64 :=
  match o with
  | Some v => mkNullFloat64 v true
  | None => nullFloat64
  end.

(** [extractCoordinates] (gps.go): latitude, longitude, accuracy. *)
Definition extractCoordinates (raw : string)
  : result (NullFloat64 * NullFloat64 * NullFloat64) :=
  if decide (raw = "") then inr (nullFloat64, nullFloat64, nullFloat64)
  else
    match Unmarshal raw with
    | inl err => inl (fmt_Errorf "unmarshal shared_attrs: %w" [] err)
    | inr attrs =>
        inr (nullFloat64Of (pickFloat (index attrs "latitude")),
             nullFloat64Of (pickFloat (index attrs "longitude")),
             nullFloat64Of (pickFloat (index attrs "gps_accuracy")))
    end.

End Library.

(** ** A state and error monad for the stateful code

    A Go function that mutates state and returns [error] is a function from
    the state to a result and the state it leaves behind; after an error the
    mutations made so far stay. *)

Definition M (S A : Type) : Type := S -> result A * S.

Definition ret {S A : Type} (a : A) : M S A := fun s => (inr a, s).

Definition fail {S A : Type} (e : error) : M S A := fun s => (inl e, s).

Definition bind {S A B : Type} (c : M S A) (k : A -> M S B) : M S B :=
  fun s =>
    match c s with
    | (inl e, s') => (inl e, s')
    | (inr a, s') => k a s'
    end.

Definition get {S : Type} : M S S := fun s => (inr s, s).

Definition put {S : Type} (s : S) : M S unit := fun _ => (inr tt, s).

(** [defer d; body]: [d] runs when [body] has returned, whatever it returned. *)
Definition defer {S A : Type} (d : M S unit) (body : M S A) : M S A :=
  fun s =>
    let '(r, s1) := body s in
    let '(_, s2) := d s1 in
    (r, s2).

(** [if err := c; err != nil { return wrap(err) }] *)
Definition wrapErr {S A : Type} (wrap : error -> error) (c : M S A) : M S A :=
  fun s =>
    match c s with
    | (inl e, s') => (inl (wrap e), s')
    | (inr a, s') => (inr a, s')
    end.

Notation "x <- c1 ;; c2" := (bind c1 (fun x => c2))
  (at level 100, c1 at next level, right associativity).
Notation "c1 ;; c2" := (bind c1 (fun _ => c2))
  (at level 100, right associativity).

(** ** minuteAverager *)

Record minuteAverager : Type := mkMinuteAverager {
  m_active : bool;
  m_entityID : string;
  m_minute : Time;
  m_sum : float64;
  m_count : Z;
  m_maxTime : Time;
  m_maxTimeValid : bool;
  m_stateID : Z;
  m_meta : energyMetadata
}.

(** The averager [newMinuteAverager] returns, which is also what [reset]
    leaves. *)
Definition idleAverager : minuteAverager :=
  {| m_active := false; m_entityID := ""; m_minute := zeroTime;
     m_sum := Float64.zero; m_count := 0; m_maxTime := zeroTime;
     m_maxTimeValid := false; m_stateID := 0; m_meta := emptyMetadata |}.

Section Averager.

(** The averager calls [m.emit]; [W] is whatever state that callback works
    on. *)
Context {W : Type}.
Variable FormatFloat : float64 -> string.
Variable emit : energyRow -> M W unit.

Definition getM : M (minuteAverager * W) minuteAverager :=
  fun s => (inr (fst s), s).

Definition setM (m : minuteAverager) : M (minuteAverager * W) unit :=
  fun s => (inr tt, (m, snd s)).

Definition callEmit (row : energyRow) : M (minuteAverager * W) unit :=
  fun s => let '(r, w) := emit row (snd s) in (r, (fst s, w)).

Definition reset : M (minuteAverager * W) unit := setM idleAverager.

Definition Flush : M (minuteAverager * W) unit :=
  m <- getM ;;
  if negb (m_active m) then ret tt
  else
    defer reset
      (if (m_count m =? 0) || negb (m_maxTimeValid m) then ret tt
       else
         let avg := Float64.div (m_sum m) (Float64.of_int (m_count m)) in
         let row :=
           {| stateID := m_stateID m;
              entityID := m_entityID m;
              state := FormatFloat avg;
              numericState := mkNullFloat64 avg true;
              meta := m_meta m;
              lastUpdated := mkNullTime (m_maxTime m) true |} in
         callEmit row).

Definition Add (row : energyRow) : M (minuteAverager * W) unit :=
  let minute := TruncateMinute (Time_ (lastUpdated row)) in
  m <- getM ;;
  (if m_active m
      && (negb (bool_decide (entityID row = m_entityID m))
          || negb (Equal minute (m_minute m)))
   then Flush else ret tt) ;;
  m <- getM ;;
  (if negb (m_active m) then
     setM {| m_active := true; m_entityID := entityID row; m_minute := minute;
             m_sum := Float64.zero; m_count := 0; m_maxTime := zeroTime;
             m_maxTimeValid := false; m_stateID := m_stateID m;
             m_meta := m_meta m |}
   else ret tt) ;;
  m <- getM ;;
  setM {| m_active := m_active m; m_entityID := m_entityID m; m_minute := m_minute m;
          m_sum := Float64.add (m_sum m) (Float64 (numericState row));
          m_count := GoInt.wrap64 (m_count m + 1);
          m_maxTime := m_maxTime m; m_maxTimeValid := m_maxTimeValid m;
          m_stateID := m_stateID m; m_meta := m_meta m |} ;;
  m <- getM ;;
  if negb (m_maxTimeValid m)
     || After (Time_ (lastUpdated row)) (m_maxTime m)
     || (Equal (Time_ (lastUpdated row)) (m_maxTime m) && (stateID row >? m_stateID m))
  then
    setM {| m_active := m_active m; m_entityID := m_entityID m; m_minute := m_minute m;
            m_sum := m_sum m; m_count := m_count m;
            m_maxTime := Time_ (lastUpdated row); m_maxTimeValid := true;
            m_stateID := stateID row; m_meta := meta row |}
  else ret tt.

End Averager.

(** ** transferEnergyData *)

(** The values appended to [args []any]. *)
Inductive sqlArg : Type :=
  | ArgString (s : string)
  | ArgNullFloat64 (v : NullFloat64)
  | ArgNullString (v : NullString)
  | ArgNullTime (v : NullTime).

Definition nl : string := String (ascii_of_nat 10) EmptyString.

Fixpoint unlines (ls : list string) : string :=
  match ls with
  | [] => ""
  | [l] => l
  | l :: ls' => l ++ nl ++ unlines ls'
  end.

Definition upsertPrefix : string :=
  nl ++ unlines
    [ "INSERT INTO energy_points(";
      "    entity_id,";
      "    state,";
      "    numeric_state,";
      "    unit,";
      "    device_class,";
      "    state_class,";
      "    friendly_name,";
      "    last_updated";
      ") VALUES" ].

Definition upsertSuffix : string :=
  nl ++ unlines
    [ "ON DUPLICATE KEY UPDATE";
      "    entity_id = VALUES(entity_id),";
      "    state = VALUES(state),";
      "    numeric_state = VALUES(numeric_state),";
      "    unit = VALUES(unit),";
      "    device_class = VALUES(device_class),";
      "    state_class = VALUES(state_class),";
      "    friendly_name = VALUES(friendly_name),";
      "    last_updated = VALUES(last_updated)" ] ++ nl.

Definition energyBatchSize : Z := 500.

(** One row of the source query, as [rows.Scan] fills the loop variables. *)
Record scanned : Type := mkScanned {
  scan_stateID : Z;
  scan_entityID : string;
  scan_state : string;
  scan_lastUpdatedVal : NullFloat64;
  scan_attributesJSON : string
}.

(** The source cursor: what each [rows.Next]/[rows.Scan] yields, in order, and
    what [rows.Err] reports once the rows are exhausted. *)
Record cursor : Type := mkCursor {
  items : list (result scanned);
  rowsErr : option error
}.

(** The local variables the closures [flushBatch] and [appendRow] capture,
    with the sink they write to. *)
Record driver (DB : Type) : Type := mkDriver {
  args : list sqlArg;
  valueSegments : string;
  rowCount : Z;
  entityWatermarks : gmap string Time;
  mysqlDB : DB
}.

Arguments mkDriver {DB}.
Arguments args {DB}.
Arguments valueSegments {DB}.
Arguments rowCount {DB}.
Arguments entityWatermarks {DB}.
Arguments mysqlDB {DB}.

(** How an iteration of the row loop ended: at the watermark [continue], at
    the [continue] after [averager.Add], or at the end of the body. *)
Inductive outcome : Type := Skipped | Aggregated | PassedThrough.

Section Pipeline.

Variable ParseFloat : string -> option float64.
Variable FormatFloat : float64 -> string.
Variable Unmarshal : string -> result (gmap string any).
Variable pickString : any -> option string.

(** The sink: a state [DB], [mysqlDB.ExecContext(ctx, query, args...)], and
    the rows of the watermark query of [loadEnergyEntityWatermarks] (an error
    stands for a failed query, scan or iteration alike: the function returns
    each of them unwrapped). *)
Variable DB : Type.
Variable ExecContext : string -> list sqlArg -> M DB unit.
Variable queryWatermarks : DB -> result (list (string * NullTime)).

Definition loadEnergyEntityWatermarks (db : DB) : result (gmap string Time) :=
  match queryWatermarks db with
  | inl err => inl err
  | inr rows =>
      inr (fold_left
             (fun (watermarks : gmap string Time) (r : string * NullTime) =>
                let '(entityID, ts) := r in
                if ntValid ts then <[entityID := Time_ ts]> watermarks
                else watermarks)
             rows ∅)
  end.

Definition callExec (query : string) (a : list sqlArg) : M (driver DB) unit :=
  fun d =>
    let '(r, db) := ExecContext query a (mysqlDB d) in
    (r, {| args := args d; valueSegments := valueSegments d; rowCount := rowCount d;
           entityWatermarks := entityWatermarks d; mysqlDB := db |}).

Definition flushBatch : M (driver DB) unit :=
  d <- get ;;
  if rowCount d =? 0 then ret tt
  else
    let query := upsertPrefix ++ valueSegments d ++ nl ++ upsertSuffix in
    wrapErr (fmt_Errorf "upsert mysql rows: %w" []) (callExec query (args d)) ;;
    d <- get ;;
    put {| args := []; valueSegments := ""; rowCount := 0;
           entityWatermarks := entityWatermarks d; mysqlDB := mysqlDB d |}.

Definition placeholders : string := nl ++ "    (?, ?, ?, ?, ?, ?, ?, ?)".

Definition rowArgs (row : energyRow) : list sqlArg :=
  [ ArgString (entityID row);
    ArgString (state row);
    ArgNullFloat64 (numericState row);
    ArgNullString (Unit (meta row));
    ArgNullString (DeviceClass (meta row));
    ArgNullString (StateClass (meta row));
    ArgNullString (FriendlyName (meta row));
    ArgNullTime (lastUpdated row) ].

Definition advance (row : energyRow) (watermarks : gmap string Time) : gmap string Time :=
  if ntValid (lastUpdated row) then
    match watermarks !! entityID row with
    | Some current =>
        if After (Time_ (lastUpdated row)) current
        then <[entityID row := Time_ (lastUpdated row)]> watermarks
        else watermarks
    | None => <[entityID row := Time_ (lastUpdated row)]> watermarks
    end
  else watermarks.

Definition appendRow (row : energyRow) : M (driver DB) unit :=
  d <- get ;;
  put {| args := List.app (args d) (rowArgs row);
         valueSegments :=
           (valueSegments d ++ (if rowCount d >? 0 then "," else "")) ++ placeholders;
         rowCount := GoInt.wrap64 (rowCount d + 1);
         entityWatermarks := advance row (entityWatermarks d);
         mysqlDB := mysqlDB d |} ;;
  d <- get ;;
  if rowCount d >=? energyBatchSize then flushBatch else ret tt.

(** The test in front of the first [continue] of the row loop:
<<
      if lastUpdated.Valid {
          if watermark, ok := entityWatermarks[entityID]; ok {
              if !lastUpdated.Time.After(watermark) { continue }
          }
      }
>> *)
Definition alreadySynced (lastUpdated : NullTime) (watermarks : gmap string Time)
    (entityID : string) : bool :=
  ntValid lastUpdated
  && match watermarks !! entityID with
     | Some watermark => negb (After (Time_ lastUpdated) watermark)
     | None => false
     end.

Definition callDriver {A : Type} (c : M (driver DB) A) : M (minuteAverager * driver DB) A :=
  fun s => let '(r, d) := c (snd s) in (r, (fst s, d)).

Definition loopBody (r : scanned) : M (minuteAverager * driver DB) outcome :=
  match floatToNullTime (scan_lastUpdatedVal r) with
  | inl err =>
      fail (fmt_Errorf "convert last_updated_ts for state_id %d: %w" [scan_stateID r] err)
  | inr lastUpdated =>
      s <- get ;;
      if alreadySynced lastUpdated (entityWatermarks (snd s)) (scan_entityID r)
      then ret Skipped
      else
        match extractEnergyMetadata Unmarshal pickString (scan_attributesJSON r) with
        | inl err =>
            fail (fmt_Errorf "parse attributes for state_id %d: %w" [scan_stateID r] err)
        | inr meta =>
            let numericState := parseNumericState ParseFloat (scan_state r) in
            let row := {| stateID := scan_stateID r;
                          entityID := scan_entityID r;
                          state := scan_state r;
                          numericState := numericState;
                          meta := meta;
                          lastUpdated := lastUpdated |} in
            if shouldAggregateRow row then
              Add FormatFloat appendRow row ;; ret Aggregated
            else
              Flush FormatFloat appendRow ;;
              callDriver (appendRow row) ;;
              ret PassedThrough
        end
  end.

Fixpoint forRows (its : list (result scanned)) : M (minuteAverager * driver DB) unit :=
  match its with
  | [] => ret tt
  | inl err :: _ => fail (fmt_Errorf "scan sqlite row: %w" [] err)
  | inr r :: rest => loopBody r ;; forRows rest
  end.

(** The row loop and what follows it: the [rows.Err] check, the last
    [averager.Flush] and the last [flushBatch]. *)
Definition mainLoop (src : cursor) : M (minuteAverager * driver DB) unit :=
  forRows (items src) ;;
  match rowsErr src with
  | Some err => fail (fmt_Errorf "iterate sqlite rows: %w" [] err)
  | None => ret tt
  end ;;
  Flush FormatFloat appendRow ;;
  callDriver flushBatch.

(** [transferEnergyData] from the point where both connections are open and
    the table exists; the sink state goes in and comes out. *)
Definition transferEnergyData (src : cursor) : M DB unit :=
  fun db =>
    match loadEnergyEntityWatermarks db with
    | inl err => (inl (fmt_Errorf "load energy checkpoints: %w" [] err), db)
    | inr watermarks =>
        let d0 := {| args := []; valueSegments := ""; rowCount := 0;
                     entityWatermarks := watermarks; mysqlDB := db |} in
        let '(r, s) := mainLoop src (idleAverager, d0) in
        (r, mysqlDB (snd s))
    end.

(** [appendRow] up to its last statement: the row is buffered and the
    watermark of its entity advanced. *)
Definition buffered (row : energyRow) (d : driver DB) : driver DB :=
  {| args := List.app (args d) (rowArgs row);
     valueSegments :=
       (valueSegments d ++ (if rowCount d >? 0 then "," else "")) ++ placeholders;
     rowCount := GoInt.wrap64 (rowCount d + 1);
     entityWatermarks := advance row (entityWatermarks d);
     mysqlDB := mysqlDB d |}.

(** [appendRow] called on each row in turn, stopping at the first error. *)
Fixpoint appendAll (rows : list energyRow) : M (driver DB) unit :=
  match rows with
  | [] => ret tt
  | row :: rest => appendRow row ;; appendAll rest
  end.

End Pipeline.

(** ** Reference implementations of the library functions

    Executable stand-ins for [strconv] and [encoding/json], used to run the
    definitions above on concrete inputs.  The theorems are stated for
    arbitrary [ParseFloat], [FormatFloat] and [Unmarshal]. *)

Module GoRef.

Import GoStrings.

Definition digitVal (c : ascii) : option Z :=
  let n := Z.of_nat (nat_of_ascii c) in
  if (48 <=? n) && (n <=? 57) then Some (n - 48) else None.

(** Reads a run of decimal digits: their value on top of [acc], how many
    there were, and the rest. *)
Fixpoint digits (l : list ascii) (acc : Z) (n : Z) : Z * Z * list ascii :=
  match l with
  | c :: l' =>
      match digitVal c with
      | Some d => digits l' (10 * acc + d) (n + 1)
      | None => (acc, n, l)
      end
  | [] => (acc, n, l)
  end.

(** The binary64 nearest to [(-1)^neg * m * 10^e10], ties to even. *)
Definition decimalToFloat64 (neg : bool) (m : Z) (e10 : Z) : float64 :=
  match m with
  | Zpos p =>
      if 0 <=? e10 then
        binary_round Float64.prec Float64.emax neg (Z.to_pos (m * 10 ^ e10)) 0
      else
        let d := 10 ^ (- e10) in
        let s := Z.max 0 (Z.log2 d - Z.log2 m + 56) in
        let '(q, r) := Z.div_eucl (Z.shiftl m s) d in
        binary_round_aux Float64.prec Float64.emax neg q (- s) (new_location d r)
  | _ => S754_zero neg
  end.

(** [strconv.ParseFloat(s, 64)] on decimal literals: an optional sign, digits
    with an optional point (at least one digit), an optional exponent.  The
    other forms the package reads (hexadecimal, infinities, NaN, underscores)
    are rejected here, as is a value that rounds to an infinity. *)
Definition ParseFloat (s : string) : option float64 :=
  let l := list_ascii_of_string s in
  let '(neg, l) :=
    match l with
    | "-"%char :: l' => (true, l')
    | "+"%char :: l' => (false, l')
    | _ => (false, l)
    end in
  let '(m, n1, l) := digits l 0 0 in
  let '(m, n2, l) :=
    match l with
    | "."%char :: l' => digits l' m 0
    | _ => (m, 0, l)
    end in
  if n1 + n2 =? 0 then None
  else
    let exponent :=
      match l with
      | c :: l' =>
          if Ascii.eqb c "e" || Ascii.eqb c "E" then
            let '(eneg, l') :=
              match l' with
              | "-"%char :: l'' => (true, l'')
              | "+"%char :: l'' => (false, l'')
              | _ => (false, l')
              end in
            let '(e, n, rest) := digits l' 0 0 in
            if n =? 0 then None
            else match rest with
                 | [] => Some (if eneg then - e else e)
                 | _ => None
                 end
          else None
      | [] => Some 0
      end in
    match exponent with
    | None => None
    | Some e =>
        match decimalToFloat64 neg m (e - n2) with
        | S754_infinity _ => None
        | f => Some f
        end
    end.

Definition float64_eqb (f g : float64) : bool :=
  match f, g with
  | S754_zero s, S754_zero s' => Bool.eqb s s'
  | S754_infinity s, S754_infinity s' => Bool.eqb s s'
  | S754_nan, S754_nan => true
  | S754_finite s m e, S754_finite s' m' e' => Bool.eqb s s' && (m =? m')%positive && (e =? e')
  | _, _ => false
  end.

Definition zeros (n : Z) : string := string_of_list_ascii (repeat "0"%char (Z.to_nat n)).

(** [m * 10^e10] written without an exponent. *)
Definition renderDecimal (m e10 : Z) : string :=
  if 0 <=? e10 then pretty (m * 10 ^ e10)
  else
    let p := 10 ^ (- e10) in
    let frac := pretty (m mod p) in
    let frac := zeros (- e10 - Z.of_nat (String.length frac)) ++ frac in
    let frac := string_of_list_ascii
                  (List.rev (trimLeft [["0"%char]] (String.length frac)
                               (List.rev (list_ascii_of_string frac)))) in
    if decide (frac = "") then pretty (m / p) else pretty (m / p) ++ "." ++ frac.

(** The decimal with [n] significant digits, below or above [num/den], that
    reads back as [f], whichever is nearer. *)
Definition shortestWith (f : float64) (num den : Z) (n : Z) : option (Z * Z) :=
  let k := Z.of_nat (String.length (pretty num)) - Z.of_nat (String.length (pretty den)) - 1 in
  let k := if den * 10 ^ (k + 1) <=? num then k + 1 else k in
  let k := if (k <? 0) && (num * 10 ^ (- k) <? den) then k - 1 else k in
  let p := n - 1 - k in
  let '(snum, sden) := if 0 <=? p then (num * 10 ^ p, den) else (num, den * 10 ^ (- p)) in
  let lo := snum / sden in
  let hi := lo + 1 in
  let ok c := float64_eqb (decimalToFloat64 false c (- p)) f in
  let loNearer := 2 * (snum - lo * sden) <=? sden in
  match ok lo, ok hi with
  | true, true => Some (if loNearer then lo else hi, - p)
  | true, false => Some (lo, - p)
  | false, true => Some (hi, - p)
  | false, false => None
  end.

Fixpoint shortest (f : float64) (num den : Z) (n : Z) (fuel : nat) : Z * Z :=
  match fuel with
  | O => (0, 0)
  | S fuel' =>
      match shortestWith f num den n with
      | Some r => r
      | None => shortest f num den (n + 1) fuel'
      end
  end.

(** [strconv.FormatFloat(f, 'f', -1, 64)]: the fewest digits that read back as
    [f], without an exponent. *)
Definition FormatFloat (f : float64) : string :=
  match f with
  | S754_nan => "NaN"
  | S754_infinity s => if s then "-Inf" else "+Inf"
  | S754_zero s => if s then "-0" else "0"
  | S754_finite s m e =>
      let '(num, den) := if 0 <=? e then (Zpos m * 2 ^ e, 1) else (Zpos m, 2 ^ (- e)) in
      let '(d, e10) := shortest (S754_finite false m e) num den 1 17 in
      (if s then "-" else "") ++ renderDecimal d e10
  end.

(** [json.Unmarshal] into a fresh [map[string]any], for the JSON grammar of
    RFC 8259: white space is space, tab, line feed and carriage return; numbers
    become float64; an object gives a map in which the last of equal keys
    wins; [null] leaves the map nil; any other top-level value, and any text
    that is not one JSON value, is an error.  Escapes of surrogate halves are
    outside this decoder and rejected; bytes that are not UTF-8 are kept. *)

Definition isWs (c : ascii) : bool :=
  let n := nat_of_ascii c in
  ((n =? 32) || (n =? 9) || (n =? 10) || (n =? 13))%nat.

Fixpoint skipWs (l : list ascii) : list ascii :=
  match l with
  | c :: l' => if isWs c then skipWs l' else l
  | [] => []
  end.

Definition hexVal (c : ascii) : option Z :=
  let n := Z.of_nat (nat_of_ascii c) in
  if (48 <=? n) && (n <=? 57) then Some (n - 48)
  else if (65 <=? n) && (n <=? 70) then Some (n - 55)
  else if (97 <=? n) && (n <=? 102) then Some (n - 87)
  else None.

Definition byteZ (z : Z) : ascii := ascii_of_nat (Z.to_nat z).

(** The UTF-8 bytes of a code point of the basic plane, last byte first. *)
Definition utf8rev (cp : Z) : option (list ascii) :=
  if cp <? 128 then Some [byteZ cp]
  else if cp <? 2048 then Some [byteZ (128 + cp mod 64); byteZ (192 + cp / 64)]
  else if (55296 <=? cp) && (cp <=? 57343) then None
  else Some [byteZ (128 + cp mod 64); byteZ (128 + (cp / 64) mod 64); byteZ (224 + cp / 4096)].

Definition simpleEscape (c : ascii) : option ascii :=
  if Ascii.eqb c (byte 34) then Some (byte 34)
  else if Ascii.eqb c (byte 92) then Some (byte 92)
  else if Ascii.eqb c "/" then Some "/"%char
  else if Ascii.eqb c "b" then Some (byte 8)
  else if Ascii.eqb c "f" then Some (byte 12)
  else if Ascii.eqb c "n" then Some (byte 10)
  else if Ascii.eqb c "r" then Some (byte 13)
  else if Ascii.eqb c "t" then Some (byte 9)
  else None.

(** The rest of a string literal after its opening quote. *)
Fixpoint stringBody (l : list ascii) (acc : list ascii) : option (string * list ascii) :=
  match l with
  | [] => None
  | c :: l' =>
      if Ascii.eqb c (byte 34) then Some (string_of_list_ascii (List.rev acc), l')
      else if Ascii.eqb c (byte 92) then
        match l' with
        | e :: l'' =>
            match simpleEscape e with
            | Some b => stringBody l'' (b :: acc)
            | None =>
                match l'' with
                | h1 :: h2 :: h3 :: h4 :: l3 =>
                    if Ascii.eqb e "u" then
                      match hexVal h1, hexVal h2, hexVal h3, hexVal h4 with
                      | Some a, Some b, Some c', Some d =>
                          match utf8rev (((a * 16 + b) * 16 + c') * 16 + d) with
                          | Some bs => stringBody l3 (List.app bs acc)
                          | None => None
                          end
                      | _, _, _, _ => None
                      end
                    else None
                | _ => None
                end
            end
        | [] => None
        end
      else if (nat_of_ascii c <? 32)%nat then None
      else stringBody l' (c :: acc)
  end.

Fixpoint takeDigits (l : list ascii) : list ascii * list ascii :=
  match l with
  | c :: l' =>
      match digitVal c with
      | Some _ => let '(ds, r) := takeDigits l' in (c :: ds, r)
      | None => ([], l)
      end
  | [] => ([], [])
  end.

(** A number literal at the front of the input: [-? int frac? exp?]. *)
Definition numberLiteral (l : list ascii) : option (list ascii * list ascii) :=
  let '(sign, l) := match l with "-"%char :: l' => (["-"%char], l') | _ => ([], l) end in
  let '(int, l) := takeDigits l in
  match int with
  | [] => None
  | d :: ds =>
      if Ascii.eqb d "0" && negb (Nat.eqb (List.length ds) 0) then None
      else
        let frac :=
          match l with
          | "."%char :: l' =>
              let '(fs, r) := takeDigits l' in
              match fs with [] => None | _ => Some ("."%char :: fs, r) end
          | _ => Some ([], l)
          end in
        match frac with
        | None => None
        | Some (fs, l) =>
            let exp :=
              match l with
              | c :: l' =>
                  if Ascii.eqb c "e" || Ascii.eqb c "E" then
                    let '(sg, l') :=
                      match l' with
                      | "-"%char :: l'' => (["-"%char], l'')
                      | "+"%char :: l'' => (["+"%char], l'')
                      | _ => ([], l')
                      end in
                    let '(es, r) := takeDigits l' in
                    match es with [] => None | _ => Some (c :: List.app sg es, r) end
                  else Some ([], l)
              | [] => Some ([], l)
              end in
            match exp with
            | None => None
            | Some (es, l) => Some (List.app sign (List.app int (List.app fs es)), l)
            end
        end
  end.

Definition literal (word : string) (v : any) (l : list ascii) : option (any * list ascii) :=
  match stripPrefix (list_ascii_of_string word) l with
  | Some r => Some (v, r)
  | None => None
  end.

Fixpoint value (fuel : nat) (l : list ascii) {struct fuel} : option (any * list ascii) :=
  match fuel with
  | O => None
  | S n =>
      match skipWs l with
      | [] => None
      | c :: r =>
          if Ascii.eqb c "{" then
            match skipWs r with
            | "}"%char :: r' => Some (AnyMap [], r')
            | _ => members n r []
            end
          else if Ascii.eqb c "[" then
            match skipWs r with
            | "]"%char :: r' => Some (AnySlice [], r')
            | _ => elements n r []
            end
          else if Ascii.eqb c (byte 34) then
            match stringBody r [] with
            | Some (s, r') => Some (AnyString s, r')
            | None => None
            end
          else if Ascii.eqb c "t" then literal "true" (AnyBool true) (c :: r)
          else if Ascii.eqb c "f" then literal "false" (AnyBool false) (c :: r)
          else if Ascii.eqb c "n" then literal "null" AnyNil (c :: r)
          else
            match numberLiteral (c :: r) with
            | Some (lit, r') =>
                match ParseFloat (string_of_list_ascii lit) with
                | Some f => Some (AnyFloat64 f, r')
                | None => None
                end
            | None => None
            end
      end
  end
with members (fuel : nat) (l : list ascii) (acc : list (string * any)) {struct fuel}
  : option (any * list ascii) :=
  match fuel with
  | O => None
  | S n =>
      match skipWs l with
      | q :: r =>
          if Ascii.eqb q (byte 34) then
            match stringBody r [] with
            | Some (key, r1) =>
                match skipWs r1 with
                | ":"%char :: r2 =>
                    match value n r2 with
                    | Some (v, r3) =>
                        match skipWs r3 with
                        | ","%char :: r4 => members n r4 ((key, v) :: acc)
                        | "}"%char :: r4 => Some (AnyMap (List.rev ((key, v) :: acc)), r4)
                        | _ => None
                        end
                    | None => None
                    end
                | _ => None
                end
            | None => None
            end
          else None
      | [] => None
      end
  end
with elements (fuel : nat) (l : list ascii) (acc : list any) {struct fuel}
  : option (any * list ascii) :=
  match fuel with
  | O => None
  | S n =>
      match value n l with
      | Some (v, r) =>
          match skipWs r with
          | ","%char :: r' => elements n r' (v :: acc)
          | "]"%char :: r' => Some (AnySlice (List.rev (v :: acc)), r')
          | _ => None
          end
      | None => None
      end
  end.

Definition Unmarshal (data : string) : result (gmap string any) :=
  let l := list_ascii_of_string data in
  match value (S (List.length l)) l with
  | Some (v, rest) =>
      match skipWs rest with
      | [] =>
          match v with
          | AnyMap kvs => inr (list_to_map (List.rev kvs))
          | AnyNil => inr ∅
          | _ => inl (library_error "json: cannot unmarshal into Go value of type map[string]interface {}")
          end
      | _ => inl (library_error "invalid character after top-level value")
      end
  | None => inl (library_error "invalid or incomplete JSON input")
  end.

(** A stand-in for the helper [pickString], whose file is not among the
    sources: a string is picked as it is.  The runs below use empty attribute
    payloads, for which [extractEnergyMetadata] does not call it. *)
Definition pickString (v : any) : option string :=
  match v with
  | AnyString s => Some s
  | _ => None
  end.

End GoRef.

(** ** Two sinks

    [LogSink] records every statement sent to it, in order, and holds no
    watermarks.  [EnergyPoints] is the table [ensureEnergyPointsTable]
    declares:
<<
      state_id BIGINT NOT NULL AUTO_INCREMENT PRIMARY KEY,
      entity_id, state, numeric_state, unit, device_class, state_class,
      friendly_name, last_updated DATETIME NULL
>>
    with the non-unique index on [(entity_id, last_updated)].  The statement
    of [transferEnergyData] names eight columns and not [state_id], so every
    tuple is stored under a fresh key and the [ON DUPLICATE KEY UPDATE] part
    finds no row to overwrite.  A [DATETIME] column holds whole seconds: the
    server rounds the fractional seconds it is sent to the nearest second,
    half a second upwards ([datetime]).  The range of [DATETIME] and the
    session time zone are outside this model. *)

Module LogSink.

Definition DB : Type := list (string * list sqlArg).

Definition ExecContext (query : string) (a : list sqlArg) : M DB unit :=
  fun db => (inr tt, List.app db [(query, a)]).

Definition queryWatermarks (db : DB) : result (list (string * NullTime)) := inr [].

End LogSink.

Module EnergyPoints.

Record point : Type := mkPoint {
  state_id : Z;
  entity_id : string;
  state_ : string;
  numeric_state : NullFloat64;
  unit_ : NullString;
  device_class : NullString;
  state_class : NullString;
  friendly_name : NullString;
  last_updated : NullTime
}.

Definition DB : Type := list point.

(** The value AUTO_INCREMENT gives the next row: one more than the largest key
    in use. *)
Definition nextID (db : DB) : Z := 1 + fold_right Z.max 0 (List.map state_id db).

(** The tuples of a [VALUES] list, eight arguments each. *)
Fixpoint tuples (a : list sqlArg) : option (list energyRow) :=
  match a with
  | [] => Some []
  | ArgString e :: ArgString s :: ArgNullFloat64 n :: ArgNullString u
      :: ArgNullString dc :: ArgNullString sc :: ArgNullString fn :: ArgNullTime lu :: rest =>
      match tuples rest with
      | Some rows =>
          Some ({| stateID := 0; entityID := e; state := s; numericState := n;
                   meta := mkEnergyMetadata u dc sc fn; lastUpdated := lu |} :: rows)
      | None => None
      end
  | _ => None
  end.

(** The instant a [DATETIME] column keeps of [t]. *)
Definition datetime (t : Time) : Time :=
  mkTime (if nsec t >=? 500000000 then sec t + 1 else sec t) 0.

(** The value stored for a timestamp argument; NULL stays NULL. *)
Definition stored (lu : NullTime) : NullTime :=
  if ntValid lu then mkNullTime (datetime (Time_ lu)) true else lu.

Definition insert (db : DB) (row : energyRow) : DB :=
  List.app db
    [ {| state_id := nextID db; entity_id := entityID row; state_ := state row;
         numeric_state := numericState row; unit_ := Unit (meta row);
         device_class := DeviceClass (meta row); state_class := StateClass (meta row);
         friendly_name := FriendlyName (meta row);
         last_updated := stored (lastUpdated row) |} ].

(** The upsert statement; the query text is taken to be the one
    [flushBatch] builds. *)
Definition ExecContext (query : string) (a : list sqlArg) : M DB unit :=
  fun db =>
    match tuples a with
    | Some rows => (inr tt, fold_left insert rows db)
    | None => (inl (library_error "Error 1136: Column count doesn't match value count"), db)
    end.

(** [MAX(last_updated)] over a group: NULL when every value is NULL. *)
Definition maxTime (acc : NullTime) (p : point) : NullTime :=
  if ntValid (last_updated p) then
    if ntValid acc && negb (After (Time_ (last_updated p)) (Time_ acc)) then acc
    else mkNullTime (Time_ (last_updated p)) true
  else acc.

(** [SELECT entity_id, MAX(last_updated) FROM energy_points GROUP BY entity_id] *)
Definition queryWatermarks (db : DB) : result (list (string * NullTime)) :=
  inr (List.map
         (fun e => (e, fold_left maxTime
                         (List.filter (fun p => bool_decide (entity_id p = e)) db) nullTime))
         (remove_dups (List.map entity_id db))).

End EnergyPoints.

(** The pipeline over the reference library and each sink. *)
Definition runLogged : cursor -> M LogSink.DB unit :=
  transferEnergyData GoRef.ParseFloat GoRef.FormatFloat GoRef.Unmarshal GoRef.pickString
    LogSink.DB LogSink.ExecContext LogSink.queryWatermarks.

Definition runEnergyPoints : cursor -> M EnergyPoints.DB unit :=
  transferEnergyData GoRef.ParseFloat GoRef.FormatFloat GoRef.Unmarshal GoRef.pickString
    EnergyPoints.DB EnergyPoints.ExecContext EnergyPoints.queryWatermarks.

(** A source row with an empty attribute payload and a timestamp in whole
    seconds since 1970. *)
Definition reading (id : Z) (entity value : string) (unixSeconds : Z) : result scanned :=
  inr {| scan_stateID := id; scan_entityID := entity; scan_state := value;
         scan_lastUpdatedVal := mkNullFloat64 (Float64.of_int unixSeconds) true;
         scan_attributesJSON := "" |}.

(** ** What the averager holds and emits, written as plain functions

    These restate [Add] and [Flush] one effect at a time; the lemmas of the
    second part show that the methods compute exactly this. *)

(** The row [Flush] hands to [emit] for the group [m]. *)
Definition aggregate (FormatFloat : float64 -> string) (m : minuteAverager) : energyRow :=
  let avg := Float64.div (m_sum m) (Float64.of_int (m_count m)) in
  {| stateID := m_stateID m;
     entityID := m_entityID m;
     state := FormatFloat avg;
     numericState := mkNullFloat64 avg true;
     meta := m_meta m;
     lastUpdated := mkNullTime (m_maxTime m) true |}.

(** The group after its first reading. *)
Definition openGroup (row : energyRow) : minuteAverager :=
  {| m_active := true; m_entityID := entityID row;
     m_minute := TruncateMinute (Time_ (lastUpdated row));
     m_sum := Float64.add Float64.zero (Float64 (numericState row));
     m_count := 1;
     m_maxTime := Time_ (lastUpdated row); m_maxTimeValid := true;
     m_stateID := stateID row; m_meta := meta row |}.

(** Whether [row] takes over from the representative [(maxTime, stateID)]. *)
Definition wins (row : energyRow) (maxTime : Time) (stateID_ : Z) : bool :=
  After (Time_ (lastUpdated row)) maxTime
  || (Equal (Time_ (lastUpdated row)) maxTime && (stateID row >? stateID_)).

(** The group after one more reading of its entity and minute. *)
Definition accumulate (m : minuteAverager) (row : energyRow) : minuteAverager :=
  let replace := negb (m_maxTimeValid m) || wins row (m_maxTime m) (m_stateID m) in
  {| m_active := m_active m; m_entityID := m_entityID m; m_minute := m_minute m;
     m_sum := Float64.add (m_sum m) (Float64 (numericState row));
     m_count := GoInt.wrap64 (m_count m + 1);
     m_maxTime := if replace then Time_ (lastUpdated row) else m_maxTime m;
     m_maxTimeValid := if replace then true else m_maxTimeValid m;
     m_stateID := if replace then stateID row else m_stateID m;
     m_meta := if replace then meta row else m_meta m |}.

(** The representative of a group as the specification words it: the reading
    with the latest [lastUpdated], and among readings of that instant the one
    with the largest [stateID]; the earlier reading stays on a full tie. *)
Definition later (best row : energyRow) : energyRow :=
  if wins row (Time_ (lastUpdated best)) (stateID best) then row else best.

Definition representative (first : energyRow) (rest : list energyRow) : energyRow :=
  fold_left later rest first.

(** The [VALUES] list of [n] buffered rows. *)
Fixpoint valueList (n : nat) : string :=
  match n with
  | O => ""
  | S n' => (valueList n' ++ (if (0 <? n')%nat then "," else "")) ++ placeholders
  end.

Definition batchQuery (n : nat) : string :=
  upsertPrefix ++ valueList n ++ nl ++ upsertSuffix.

(** The watermark map after the rows [rows] have been appended. *)
Definition advanceAll (rows : list energyRow) (watermarks : gmap string Time)
  : gmap string Time :=
  fold_left (fun wm row => advance row wm) rows watermarks.

(** Every entry of [a] has an entry in [b] that is not earlier. *)
Definition watermarks_le (a b : gmap string Time) : Prop :=
  forall e t, a !! e = Some t -> exists t', b !! e = Some t' /\ le t t'.

(** The averager after the readings [first :: rest] of one group. *)
Definition groupOf (first : energyRow) (rest : list energyRow) : minuteAverager :=
  fold_left accumulate rest (openGroup first).

(** The arithmetic mean as the code evaluates it: a running float64 sum from
    zero, divided by the count converted to float64. *)
Definition mean (values : list float64) : float64 :=
  Float64.div (fold_left Float64.add values Float64.zero)
              (Float64.of_int (Z.of_nat (List.length values))).

(** The state in which a group is open and holds at least one reading. *)
Definition accumulating (m : minuteAverager) : Prop :=
  m_active m = true /\ 1 <= m_count m <= GoInt.max_int64 /\ m_maxTimeValid m = true.

Definition sameGroup (m : minuteAverager) (row : energyRow) : Prop :=
  entityID row = m_entityID m
  /\ TruncateMinute (Time_ (lastUpdated row)) = m_minute m.

#[global] Instance sameGroup_dec m row : Decision (sameGroup m row).
Proof. unfold sameGroup. apply _. Defined.

(** [dominates a b]: [a] is at least as late as [b] and, at the same instant,
    has at least its row id. *)
Definition dominates (a b : energyRow) : Prop :=
  le (Time_ (lastUpdated b)) (Time_ (lastUpdated a))
  /\ (Time_ (lastUpdated b) = Time_ (lastUpdated a) -> stateID b <= stateID a).

(** The buffer holding the rows [rows], all appended since the last write. *)
Definition holding (rows : list energyRow) {DB : Type} (d : driver DB) : driver DB :=
  {| args := flat_map rowArgs rows;
     valueSegments := valueList (List.length rows);
     rowCount := Z.of_nat (List.length rows);
     entityWatermarks := advanceAll rows (entityWatermarks d);
     mysqlDB := mysqlDB d |}.

(** The watermark map of [d'] is that of [d] after some rows were appended. *)
Definition advancedBy {DB : Type} (d d' : driver DB) : Prop :=
  exists rows, entityWatermarks d' = advanceAll rows (entityWatermarks d).

Section Runs.

Context {W : Type}.
Variable FormatFloat : float64 -> string.
Variable emit : energyRow -> M W unit.

(** [Add] called on each reading in turn, stopping at the first error. *)
Fixpoint addAll (rows : list energyRow) : M (minuteAverager * W) unit :=
  match rows with
  | [] => ret tt
  | row :: rest => Add FormatFloat emit row ;; addAll rest
  end.

End Runs.


(** ** The second run

    Notions for comparing a run with the run before it, over the
    [EnergyPoints] table. *)











Section SecondRun.

Variable ParseFloat : string -> option float64.
Variable Unmarshal : string -> result (gmap string any).
Variable pickString : any -> option string.



End SecondRun.

(** ** Sample data

    Entity [sensor.socket_voltage] at 10:00:05, 10:00:40 and 10:01:10 of some
    day, in seconds since 1970 ([tenOClock] is a whole minute), and an entity
    that is not averaged. *)

Definition tenOClock : Z := 1700006400.

Definition voltage : string := "sensor.socket_voltage".


(** The timestamp [floatToNullTime] gives for a whole number of seconds. *)
Definition at_ (unixSeconds : Z) : NullTime :=
  mkNullTime (mkTime (unixSeconds + unixToInternal) 0) true.

Definition number (n : Z) : NullFloat64 := mkNullFloat64 (Float64.of_int n) true.

Definition rowA : energyRow :=
  {| stateID := 1; entityID := voltage; state := "2.0"; numericState := number 2;
     meta := emptyMetadata; lastUpdated := at_ (tenOClock + 5) |}.

Definition rowB : energyRow :=
  {| stateID := 2; entityID := voltage; state := "4.0"; numericState := number 4;
     meta := emptyMetadata; lastUpdated := at_ (tenOClock + 40) |}.

Definition rowC : energyRow :=
  {| stateID := 3; entityID := voltage; state := "6.0"; numericState := number 6;
     meta := emptyMetadata; lastUpdated := at_ (tenOClock + 70) |}.

(** The averages the averager emits for [rowA; rowB] and for [rowC]. *)
Definition rowAB : energyRow :=
  {| stateID := 2; entityID := voltage; state := "3"; numericState := number 3;
     meta := emptyMetadata; lastUpdated := at_ (tenOClock + 40) |}.

Definition rowC' : energyRow :=
  {| stateID := 3; entityID := voltage; state := "6"; numericState := number 6;
     meta := emptyMetadata; lastUpdated := at_ (tenOClock + 70) |}.

(** An [emit] that records the rows it is given. *)
Definition logEmit (row : energyRow) : M (list energyRow) unit :=
  fun w => (inr tt, List.app w [row]).

(** The driver's variables before the first row, over the logging sink. *)
Definition freshDriver : driver LogSink.DB :=
  {| args := []; valueSegments := ""; rowCount := 0; entityWatermarks := ∅;
     mysqlDB := [] |}.

(** The scenario of the specification: two readings in one minute, one in
    the next. *)
Definition threeReadings : cursor :=
  {| items := [ reading 1 voltage "2.0" (tenOClock + 5);
                reading 2 voltage "4.0" (tenOClock + 40);
                reading 3 voltage "6.0" (tenOClock + 70) ];
     rowsErr := None |}.

(** Two numeric readings of one minute with an [unavailable] state between
    them, at increasing instants. *)
Definition interleaved : cursor :=
  {| items := [ reading 1 voltage "2.0" (tenOClock + 5);
                reading 2 voltage "unavailable" (tenOClock + 20);
                reading 3 voltage "4.0" (tenOClock + 40) ];
     rowsErr := None |}.

(** The same, with the third reading at the instant of the second. *)
Definition interleavedTie : cursor :=
  {| items := [ reading 1 voltage "2.0" (tenOClock + 5);
                reading 2 voltage "unavailable" (tenOClock + 40);
                reading 3 voltage "4.0" (tenOClock + 40) ];
     rowsErr := None |}.



(** ** mysql_tls.go *)

Definition ensureParseTimeEnabled (mysqlDSN : string) : string :=
  if decide (mysqlDSN = "") then mysqlDSN
  else if GoStrings.Contains (GoStrings.ToLower mysqlDSN) "parsetime=" then mysqlDSN
  else if GoStrings.Contains mysqlDSN "?" then mysqlDSN ++ "&parseTime=true"
  else mysqlDSN ++ "?parseTime=true".

(** ** gps.go: the row loop of transferGPSData *)

(** The values appended to [args []any] by the gps command. *)
Inductive gpsArg : Type :=
  | GpsInt64 (n : Z)
  | GpsString (s : string)
  | GpsNullFloat64 (v : NullFloat64)
  | GpsNullTime (v : NullTime).

Definition gpsUpsertPrefix : string :=
  nl ++ unlines
    [ "INSERT INTO gps_points(";
      "    state_id, entity_id, state, latitude, longitude, gps_accuracy, last_updated";
      ") VALUES" ].

Definition gpsUpsertSuffix : string :=
  nl ++ unlines
    [ "ON DUPLICATE KEY UPDATE";
      "    entity_id = VALUES(entity_id),";
      "    state = VALUES(state),";
      "    latitude = VALUES(latitude),";
      "    longitude = VALUES(longitude),";
      "    gps_accuracy = VALUES(gps_accuracy),";
      "    last_updated = VALUES(last_updated)" ] ++ nl.

Definition gpsPlaceholders : string := nl ++ "    (?, ?, ?, ?, ?, ?, ?)".

(** The local variables [args], [valueSegments] and [rowCount] of
    [transferGPSData]. *)
Record gpsBuffer : Type := mkGpsBuffer {
  g_args : list gpsArg;
  g_valueSegments : string;
  g_rowCount : Z
}.

Section GPS.

Variable ParseFloat : string -> option float64.
Variable Unmarshal : string -> result (gmap string any).
Variable DB : Type.
Variable ExecContext : string -> list gpsArg -> M DB unit.

(** The body of the row loop after [rows.Scan]. *)
Definition gpsLoopBody (r : scanned) : M gpsBuffer unit :=
  match extractCoordinates ParseFloat Unmarshal (scan_attributesJSON r) with
  | inl err =>
      fail (fmt_Errorf "parse attributes for state_id %d: %w" [scan_stateID r] err)
  | inr (latitude, longitude, accuracy) =>
      if negb (nfValid latitude) || negb (nfValid longitude) then ret tt
      else
        match floatToNullTime (scan_lastUpdatedVal r) with
        | inl err =>
            fail (fmt_Errorf "convert last_updated_ts for state_id %d: %w" [scan_stateID r] err)
        | inr lastUpdated =>
            b <- get ;;
            put {| g_args :=
                     List.app (g_args b)
                       [ GpsInt64 (scan_stateID r);
                         GpsString (scan_entityID r);
                         GpsString (scan_state r);
                         GpsNullFloat64 latitude;
                         GpsNullFloat64 longitude;
                         GpsNullFloat64 accuracy;
                         GpsNullTime lastUpdated ];
                   g_valueSegments :=
                     (g_valueSegments b ++ (if g_rowCount b >? 0 then "," else ""))
                     ++ gpsPlaceholders;
                   g_rowCount := GoInt.wrap64 (g_rowCount b + 1) |}
        end
  end.

Fixpoint gpsForRows (its : list (result scanned)) : M gpsBuffer unit :=
  match its with
  | [] => ret tt
  | inl err :: _ => fail (fmt_Errorf "scan sqlite row: %w" [] err)
  | inr r :: rest => gpsLoopBody r ;; gpsForRows rest
  end.

(** [transferGPSData] from the point where both connections are open and
    the table exists: the row loop, the [rows.Err] check and the one upsert. *)
Definition transferGPSData (src : cursor) : M DB unit :=
  fun db =>
    match gpsForRows (items src) {| g_args := []; g_valueSegments := ""; g_rowCount := 0 |} with
    | (inl err, _) => (inl err, db)
    | (inr _, b) =>
        match rowsErr src with
        | Some err => (inl (fmt_Errorf "iterate sqlite rows: %w" [] err), db)
        | None =>
            if g_rowCount b =? 0 then (inr tt, db)
            else
              let query := gpsUpsertPrefix ++ g_valueSegments b ++ nl ++ gpsUpsertSuffix in
              wrapErr (fmt_Errorf "upsert mysql rows: %w" []) (ExecContext query (g_args b)) db
        end
    end.

(** The seven arguments a reading contributes, written as a function of the
    reading alone: none when latitude or longitude is absent. *)
Definition gpsTuple (r : scanned) : result (list gpsArg) :=
  match extractCoordinates ParseFloat Unmarshal (scan_attributesJSON r) with
  | inl err =>
      inl (fmt_Errorf "parse attributes for state_id %d: %w" [scan_stateID r] err)
  | inr (latitude, longitude, accuracy) =>
      if nfValid latitude && nfValid longitude then
        match floatToNullTime (scan_lastUpdatedVal r) with
        | inl err =>
            inl (fmt_Errorf "convert last_updated_ts for state_id %d: %w" [scan_stateID r] err)
        | inr lastUpdated =>
            inr [ GpsInt64 (scan_stateID r); GpsString (scan_entityID r);
                  GpsString (scan_state r); GpsNullFloat64 latitude;
                  GpsNullFloat64 longitude; GpsNullFloat64 accuracy;
                  GpsNullTime lastUpdated ]
        end
      else inr []
  end.

(** The tuples of the readings in source order, up to the first error. *)
Fixpoint gpsTuples (its : list (result scanned)) : result (list (list gpsArg)) :=
  match its with
  | [] => inr []
  | inl err :: _ => inl (fmt_Errorf "scan sqlite row: %w" [] err)
  | inr r :: rest =>
      match gpsTuple r with
      | inl err => inl err
      | inr t =>
          match gpsTuples rest with
          | inl err => inl err
          | inr ts => inr (match t with [] => ts | _ => t :: ts end)
          end
      end
  end.

End GPS.

(** The [VALUES] list of [n] gps rows and the statement around it. *)
Fixpoint gpsValueList (n : nat) : string :=
  match n with
  | O => ""
  | S n' => (gpsValueList n' ++ (if (0 <? n')%nat then "," else "")) ++ gpsPlaceholders
  end.

Definition gpsBatchQuery (n : nat) : string :=
  gpsUpsertPrefix ++ gpsValueList n ++ nl ++ gpsUpsertSuffix.

(** ** Schema set-up (energy.go, gps.go) *)

Fixpoint containsString (in_ : list string) (target : string) : bool :=
  match in_ with
  | [] => false
  | v :: rest => if decide (v = target) then true else containsString rest target
  end.

Definition quoteIdentifier (id : string) : string :=
  "`" ++ GoStrings.ReplaceAll id "`" "``" ++ "`".

Record gpsIndexInfo : Type := mkGpsIndexInfo {
  nonUnique : bool;
  columns : list string
}.

Definition mysqlErrDuplicateKey : Z := 1061.
Definition mysqlErrCantDrop : Z := 1091.
Definition mysqlErrNoSuchKey : Z := 1091.

Definition energyDDL : string :=
  nl ++ unlines
    [ "CREATE TABLE IF NOT EXISTS energy_points (";
      "    state_id BIGINT NOT NULL AUTO_INCREMENT PRIMARY KEY,";
      "    entity_id VARCHAR(255) NOT NULL,";
      "    state VARCHAR(255) NOT NULL,";
      "    numeric_state DOUBLE NULL,";
      "    unit VARCHAR(64) NULL,";
      "    device_class VARCHAR(64) NULL,";
      "    state_class VARCHAR(64) NULL,";
      "    friendly_name VARCHAR(255) NULL,";
      "    last_updated DATETIME NULL";
      ")" ] ++ nl.

Definition energyModifyStmt : string :=
  nl ++ unlines
    [ "ALTER TABLE energy_points";
      "MODIFY COLUMN state_id BIGINT NOT NULL AUTO_INCREMENT" ] ++ nl.

Definition energyDropAttrStmt : string :=
  nl ++ unlines
    [ "ALTER TABLE energy_points";
      "DROP COLUMN attributes" ] ++ nl.

Definition energyIndexStmt : string :=
  nl ++ unlines
    [ "ALTER TABLE energy_points";
      "ADD INDEX idx_energy_points_entity_last_updated (entity_id, last_updated)" ] ++ nl.

Definition gpsDropPrimaryStmt : string := "ALTER TABLE gps_points DROP PRIMARY KEY".

Definition gpsAddPrimaryStmt : string := "ALTER TABLE gps_points ADD PRIMARY KEY (state_id)".

Definition gpsIndexStmt : string :=
  nl ++ unlines
    [ "ALTER TABLE gps_points";
      "ADD INDEX idx_gps_points_entity_last_updated (entity_id, last_updated)" ] ++ nl.

(** One row of the query on [INFORMATION_SCHEMA.STATISTICS], as [rows.Scan]
    fills [indexName], [column], [nonUnique] and [seq]. *)
Record statisticsRow : Type := mkStatisticsRow {
  st_indexName : string;
  st_column : NullString;
  st_nonUnique : Z;
  st_seq : Z
}.

(** The body of the loop of [ensureGPSPointsIndexes] that fills
    [indexes map[string]*gpsIndexInfo].  [None] is the run-time panic of
    [info.columns[seq-1]] for an index out of range. *)
Definition scanIndexRow (indexes : gmap string gpsIndexInfo) (row : statisticsRow)
  : option (gmap string gpsIndexInfo) :=
  if negb (nsValid (st_column row)) then Some indexes
  else
    let info :=
      match indexes !! st_indexName row with
      | Some info => info
      | None => {| nonUnique := st_nonUnique row =? 1; columns := [] |}
      end in
    let cols :=
      if Z.of_nat (List.length (columns info)) <? st_seq row
      then List.app (columns info)
             (replicate (Z.to_nat (st_seq row - Z.of_nat (List.length (columns info)))) "")
      else columns info in
    if (0 <=? st_seq row - 1) && (st_seq row - 1 <? Z.of_nat (List.length cols))
    then Some (<[st_indexName row :=
                   {| nonUnique := nonUnique info;
                      columns := <[Z.to_nat (st_seq row - 1) := String_ (st_column row)]> cols |}]>
                 indexes)
    else None.

(** The loop over the rows of the query, with the errors of [rows.Scan]. *)
Fixpoint scanIndexes (its : list (result statisticsRow)) (indexes : gmap string gpsIndexInfo)
  : option (result (gmap string gpsIndexInfo)) :=
  match its with
  | [] => Some (inr indexes)
  | inl err :: _ => Some (inl err)
  | inr row :: rest =>
      match scanIndexRow indexes row with
      | Some indexes' => scanIndexes rest indexes'
      | None => None
      end
  end.

Section Schema.

(** The server: a state [DB] and [db.ExecContext(ctx, stmt)] on it.
    [asMySQLError err] is the [Number] of the [*mysql.MySQLError] that
    [errors.As] finds in [err], if it finds one. *)
Variable DB : Type.
Variable Exec : string -> M DB unit.
Variable asMySQLError : error -> option Z.

Definition isMySQLError (err : error) (code : Z) : bool :=
  match asMySQLError err with
  | Some number => number =? code
  | None => false
  end.

(** The statement pattern
<<
      if _, err := db.ExecContext(ctx, stmt); err != nil {
          if !isMySQLError(err, code) { return fmt.Errorf(format, err) }
      }
>> *)
Definition tolerating (code : Z) (format : string) (stmt : string) : M DB unit :=
  fun db =>
    match Exec stmt db with
    | (inl err, db') =>
        if negb (isMySQLError err code) then (inl (fmt_Errorf format [] err), db')
        else (inr tt, db')
    | (inr _, db') => (inr tt, db')
    end.

Definition ensureEnergyPointsTable : M DB unit :=
  Exec energyDDL ;;
  wrapErr (fmt_Errorf "ensure auto increment state_id: %w" []) (Exec energyModifyStmt) ;;
  tolerating mysqlErrCantDrop "drop legacy attributes column: %w" energyDropAttrStmt ;;
  tolerating mysqlErrDuplicateKey "add supporting index: %w" energyIndexStmt.

Definition ensurePrimaryKeyOnStateID (indexes : gmap string gpsIndexInfo) : M DB unit :=
  let primary := indexes !! "PRIMARY" in
  if match primary with
     | Some primary =>
         (List.length (columns primary) =? 1)%nat
         && bool_decide (nth 0 (columns primary) "" = "state_id")
     | None => false
     end
  then ret tt
  else
    tolerating mysqlErrNoSuchKey "drop existing primary key: %w" gpsDropPrimaryStmt ;;
    wrapErr (fmt_Errorf "add primary key on state_id: %w" []) (Exec gpsAddPrimaryStmt).

(** [range indexes] yields the entries in an order the run time picks; the
    function is given that sequence.  The index name that
    [fmt.Errorf("drop unique index %s: %w", name, err)] formats is written
    into the format. *)
Fixpoint dropConflictingEntityIndexes (indexes : list (string * gpsIndexInfo)) : M DB unit :=
  match indexes with
  | [] => ret tt
  | (name, info) :: rest =>
      (if bool_decide (name = "PRIMARY") || nonUnique info then ret tt
       else if containsString (columns info) "state_id" then ret tt
       else if containsString (columns info) "entity_id" then
         wrapErr (fmt_Errorf ("drop unique index " ++ name ++ ": %w") [])
           (Exec ("ALTER TABLE gps_points DROP INDEX " ++ quoteIdentifier name))
       else ret tt) ;;
      dropConflictingEntityIndexes rest
  end.

Definition ensureSupportingEntityIndex : M DB unit :=
  tolerating mysqlErrDuplicateKey "add supporting index: %w" gpsIndexStmt.

(** One [DROP INDEX] per name, in order, up to the first error. *)
Fixpoint dropIndexes (names : list string) : M DB unit :=
  match names with
  | [] => ret tt
  | name :: rest =>
      wrapErr (fmt_Errorf ("drop unique index " ++ name ++ ": %w") [])
        (Exec ("ALTER TABLE gps_points DROP INDEX " ++ quoteIdentifier name)) ;;
      dropIndexes rest
  end.

End Schema.

(** A unique index other than the primary key that covers [entity_id] and
    not [state_id]. *)
Definition conflicting (entry : string * gpsIndexInfo) : Prop :=
  fst entry <> "PRIMARY" /\ nonUnique (snd entry) = false
  /\ ("state_id" ∉ columns (snd entry)) /\ ("entity_id" ∈ columns (snd entry)).

#[global] Instance conflicting_dec entry : Decision (conflicting entry).
Proof. unfold conflicting. apply _. Defined.

(** The rows [INFORMATION_SCHEMA.STATISTICS] holds for one index: one per
    column, numbered from 1. *)
Definition statisticsOf (entry : string * gpsIndexInfo) : list (result statisticsRow) :=
  imap (fun i c =>
          inr {| st_indexName := fst entry; st_column := mkNullString c true;
                 st_nonUnique := if nonUnique (snd entry) then 1 else 0;
                 st_seq := Z.of_nat i + 1 |})
       (columns (snd entry)).

(** A server that records each statement and answers it as [answer] says. *)
Module Scripted.

Definition DB : Type := list string.

Definition Exec (answer : string -> option error) (stmt : string) : M DB unit :=
  fun log =>
    (match answer stmt with Some err => inl err | None => inr tt end, List.app log [stmt]).

(** The driver's errors read [Error <number> ...]; wrapped errors are looked
    through. *)
Fixpoint asMySQLError (err : error) : option Z :=
  match err with
  | library_error msg =>
      match GoStrings.stripPrefix (list_ascii_of_string "Error ") (list_ascii_of_string msg) with
      | Some rest =>
          let '(number, n, _) := GoRef.digits rest 0 0 in
          if n =? 0 then None else Some number
      | None => None
      end
  | fmt_Errorf _ _ cause => asMySQLError cause
  | errors_New _ => None
  end.

End Scripted.

(** How the server reads a quoted identifier: after the opening backtick, two
    backticks stand for one and a single backtick ends the name.  The result
    is the name and what follows it. *)
Fixpoint readQuotedBody (s : string) : option (string * string) :=
  match s with
  | EmptyString => None
  | String c r =>
      if Ascii.eqb c "`" then
        match r with
        | String c' r' =>
            if Ascii.eqb c' "`" then
              match readQuotedBody r' with
              | Some (name, rest) => Some (String "`" name, rest)
              | None => None
              end
            else Some (EmptyString, r)
        | EmptyString => Some (EmptyString, r)
        end
      else
        match readQuotedBody r with
        | Some (name, rest) => Some (String c name, rest)
        | None => None
        end
  end.

Definition readQuoted (s : string) : option (string * string) :=
  match s with
  | String c r => if Ascii.eqb c "`" then readQuotedBody r else None
  | EmptyString => None
  end.

(** * Properties *)

(** ** Integers and instants *)

Module GoIntFacts.

Import GoInt.

Lemma wrap64_id z : in_int64 z -> wrap64 z = z.
Proof.
  unfold in_int64, min_int64, max_int64, wrap64. intros H.
  rewrite Z.mod_small; lia.
Qed.

Lemma wrap64_range z : in_int64 (wrap64 z).
Proof.
  unfold in_int64, min_int64, max_int64, wrap64.
  pose proof (Z.mod_pos_bound (z + 2 ^ 63) (2 ^ 64) ltac:(lia)). lia.
Qed.

End GoIntFacts.

Module GoTimeFacts.

Lemma After_irrefl t : After t t = false.
Proof. unfold After. destruct t as [s n]; simpl. lia. Qed.

Lemma le_refl t : le t t.
Proof. apply After_irrefl. Qed.

Lemma le_trans t u v : le t u -> le u v -> le t v.
Proof. unfold le, After. destruct t, u, v; simpl. lia. Qed.

Lemma After_le t u : After t u = true -> le u t.
Proof. unfold le, After. destruct t, u; simpl. lia. Qed.

Lemma le_total t u : le t u \/ le u t.
Proof. unfold le, After. destruct t, u; simpl. lia. Qed.

Lemma Equal_eq t u : Equal t u = true <-> t = u.
Proof.
  unfold Equal. destruct t as [s n], u as [s' n']; simpl. split.
  - intros H. f_equal; lia.
  - intros [= -> ->]. lia.
Qed.

Lemma Equal_refl t : Equal t t = true.
Proof. by apply Equal_eq. Qed.

Lemma le_antisym t u : le t u -> le u t -> t = u.
Proof.
  unfold le, After. destruct t as [s n], u as [s' n']; simpl.
  intros H1 H2. f_equal; lia.
Qed.


End GoTimeFacts.

(** ** floatToNullTime *)




(** NaN and both infinities are rejected. *)
Lemma floatToNullTime_not_a_number :
  floatToNullTime (mkNullFloat64 S754_nan true) = inl (errors_New "invalid float for timestamp")
  /\ floatToNullTime (mkNullFloat64 (S754_infinity false) true)
     = inl (errors_New "invalid float for timestamp")
  /\ floatToNullTime (mkNullFloat64 (S754_infinity true) true)
     = inl (errors_New "invalid float for timestamp").
Proof. repeat split; vm_compute; reflexivity. Qed.


(** ** The monad *)

Lemma bind_assoc {S A B C : Type} (c : M S A) (k : A -> M S B) (g : B -> M S C) (s : S) :
  bind (bind c k) g s = bind c (fun a => bind (k a) g) s.
Proof. unfold bind. destruct (c s) as [[e|a] s']; reflexivity. Qed.

(** ** minuteAverager *)

(** Unfolds the monad and the accessors built on it. *)
Ltac mrun :=
  repeat (progress (unfold reset, bind, ret, get, put, fail, defer, wrapErr, getM, setM,
                    callEmit;
                    cbn [fst snd negb andb orb
                         m_active m_entityID m_minute m_sum m_count m_maxTime
                         m_maxTimeValid m_stateID m_meta])).

Section AveragerFacts.

Context {W : Type}.
Variable FormatFloat : float64 -> string.
Variable emit : energyRow -> M W unit.


Lemma Flush_accumulating m w :
  accumulating m ->
  Flush FormatFloat emit (m, w)
  = (let '(r, w') := emit (aggregate FormatFloat m) w in (r, (idleAverager, w'))).
Proof.
  intros (Ha & Hc & Hv). unfold Flush, aggregate. mrun.
  rewrite Ha, Hv. cbn [negb orb].
  destruct (m_count m =? 0) eqn:E; [lia|]. cbn [orb fst snd].
  destruct (emit _ w) as [r w']. reflexivity.
Qed.

Lemma openGroup_accumulating row : accumulating (openGroup row).
Proof. unfold accumulating, openGroup, GoInt.max_int64; cbn. lia. Qed.

Lemma Add_idle row m w :
  m_active m = false ->
  Add FormatFloat emit row (m, w) = (inr tt, (openGroup row, w)).
Proof.
  destruct m; cbn [m_active]; intros ->. reflexivity.
Qed.

Lemma Add_sameGroup row m w :
  m_active m = true -> sameGroup m row ->
  Add FormatFloat emit row (m, w) = (inr tt, (accumulate m row, w)).
Proof.
  unfold sameGroup.
  destruct m as [a e mi su c mt mv sid me];
    cbn [m_active m_entityID m_minute]; intros -> [<- <-].
  unfold Add, accumulate, wins. mrun.
  rewrite bool_decide_eq_true_2 by done.
  rewrite GoTimeFacts.Equal_refl. mrun.
  rewrite <- orb_assoc.
  destruct (negb mv || _); reflexivity.
Qed.

Lemma Add_boundary row m w :
  accumulating m -> ~ sameGroup m row ->
  Add FormatFloat emit row (m, w)
  = match emit (aggregate FormatFloat m) w with
    | (inl e, w') => (inl e, (idleAverager, w'))
    | (inr _, w') => (inr tt, (openGroup row, w'))
    end.
Proof.
  intros Hacc Hne. pose proof Hacc as (Ha & _ & _).
  unfold Add. unfold bind at 1. unfold getM at 1. cbn [fst snd].
  rewrite Ha. cbn [andb].
  assert (negb (bool_decide (entityID row = m_entityID m))
          || negb (Equal (TruncateMinute (Time_ (lastUpdated row))) (m_minute m)) = true) as ->.
  { unfold sameGroup in Hne.
    destruct (bool_decide (entityID row = m_entityID m)) eqn:E1; [|done].
    destruct (Equal _ _) eqn:E2; [|done].
    apply bool_decide_eq_true_1 in E1. apply GoTimeFacts.Equal_eq in E2. tauto. }
  unfold bind at 1. rewrite Flush_accumulating by done.
  destruct (emit (aggregate FormatFloat m) w) as [[e|[]] w']; reflexivity.
Qed.

Lemma accumulate_accumulating m row :
  accumulating m -> m_count m + 1 <= GoInt.max_int64 ->
  accumulating (accumulate m row) /\ m_count (accumulate m row) = m_count m + 1.
Proof.
  intros (Ha & Hc & Hv) Hb. unfold accumulating, accumulate.
  cbn [m_active m_count m_maxTimeValid].
  rewrite GoIntFacts.wrap64_id
    by (unfold GoInt.in_int64, GoInt.min_int64, GoInt.max_int64 in *; lia).
  rewrite Hv. destruct (negb true || _); repeat split; auto; lia.
Qed.

Lemma sameGroup_accumulate m row x : sameGroup (accumulate m row) x <-> sameGroup m x.
Proof. reflexivity. Qed.

Lemma addAll_sameGroup rows : forall m w,
  accumulating m ->
  Forall (sameGroup m) rows ->
  m_count m + Z.of_nat (List.length rows) <= GoInt.max_int64 ->
  addAll FormatFloat emit rows (m, w) = (inr tt, (fold_left accumulate rows m, w))
  /\ accumulating (fold_left accumulate rows m)
  /\ m_count (fold_left accumulate rows m) = m_count m + Z.of_nat (List.length rows).
Proof.
  induction rows as [|row rows IH]; intros m w Hacc Hall Hb.
  - cbn. repeat split; auto; try apply Hacc. lia.
  - apply Forall_cons in Hall as [Hrow Hall].
    cbn [List.length] in Hb.
    destruct (accumulate_accumulating m row Hacc ltac:(lia)) as [Hacc' Hc'].
    cbn [addAll fold_left]. unfold bind at 1.
    rewrite Add_sameGroup by (done || apply Hacc).
    destruct (IH (accumulate m row) w Hacc') as (E & A & C).
    + eapply Forall_impl; [exact Hall|]. intros x Hx. by apply sameGroup_accumulate.
    + lia.
    + rewrite E. cbn [List.length]. repeat split; auto; try apply A. lia.
Qed.

Lemma fold_accumulate_count rows : forall m,
  accumulating m ->
  m_count m + Z.of_nat (List.length rows) <= GoInt.max_int64 ->
  accumulating (fold_left accumulate rows m)
  /\ m_count (fold_left accumulate rows m) = m_count m + Z.of_nat (List.length rows).
Proof.
  induction rows as [|y ys IH]; intros m Hm Hb; cbn [fold_left List.length] in *.
  - split; [done | lia].
  - destruct (accumulate_accumulating m y Hm ltac:(lia)) as [Hm' Hc'].
    destruct (IH (accumulate m y) Hm' ltac:(lia)) as [A C]. split; [done | lia].
Qed.

Lemma fold_accumulate_sum rows : forall m,
  m_sum (fold_left accumulate rows m)
  = fold_left Float64.add (List.map (fun x => Float64 (numericState x)) rows) (m_sum m).
Proof. induction rows as [|row rows IH]; intros m; cbn; [done|]. by rewrite IH. Qed.

Lemma fold_accumulate_key rows : forall m,
  m_entityID (fold_left accumulate rows m) = m_entityID m
  /\ m_minute (fold_left accumulate rows m) = m_minute m.
Proof.
  induction rows as [|row rows IH]; intros m; cbn; [done|].
  destruct (IH (accumulate m row)) as [-> ->]. done.
Qed.

(** The averager keeps the time, row id and metadata of [representative]. *)
Lemma fold_accumulate_representative rows : forall m best,
  m_maxTimeValid m = true ->
  m_maxTime m = Time_ (lastUpdated best) ->
  m_stateID m = stateID best ->
  m_meta m = meta best ->
  let m' := fold_left accumulate rows m in
  let rep := fold_left later rows best in
  m_maxTime m' = Time_ (lastUpdated rep)
  /\ m_stateID m' = stateID rep
  /\ m_meta m' = meta rep.
Proof.
  induction rows as [|row rows IH]; intros m best Hv Ht Hs Hm; cbn; [done|].
  apply IH; unfold accumulate, later;
    cbn [m_maxTimeValid m_maxTime m_stateID m_meta];
    rewrite Hv, Ht, Hs; cbn [negb orb];
    destruct (wins row _ _); auto.
Qed.

End AveragerFacts.

(** ** The representative of a group *)

Lemma dominates_refl a : dominates a a.
Proof. split; [apply GoTimeFacts.le_refl | lia]. Qed.

Lemma dominates_trans a b c : dominates a b -> dominates b c -> dominates a c.
Proof.
  intros [H1 H2] [H3 H4]. split.
  - eapply GoTimeFacts.le_trans; eauto.
  - intros E.
    assert (Time_ (lastUpdated b) = Time_ (lastUpdated a)) as Eba.
    { apply GoTimeFacts.le_antisym; [done|]. by rewrite <- E. }
    specialize (H2 Eba). rewrite <- Eba in E. specialize (H4 E). lia.
Qed.

Lemma later_dominates best row :
  dominates (later best row) best /\ dominates (later best row) row
  /\ (later best row = best \/ later best row = row).
Proof.
  unfold later, wins, dominates, le.
  destruct (After (Time_ (lastUpdated row)) (Time_ (lastUpdated best))) eqn:EA;
    cbn [orb].
  - repeat split; intros; auto using GoTimeFacts.After_irrefl; try lia.
    + by apply GoTimeFacts.After_le.
    + match goal with E : _ = _ |- _ => rewrite E, GoTimeFacts.After_irrefl in EA end.
      done.
  - destruct (Equal (Time_ (lastUpdated row)) (Time_ (lastUpdated best))) eqn:EE;
      cbn [andb].
    + apply GoTimeFacts.Equal_eq in EE.
      destruct (stateID row >? stateID best) eqn:EG;
        repeat split; intros; auto using GoTimeFacts.After_irrefl; try lia.
      rewrite EE. apply GoTimeFacts.After_irrefl.
    + repeat split; intros; auto using GoTimeFacts.After_irrefl; try lia.
      match goal with E : _ = _ |- _ => rewrite E, GoTimeFacts.Equal_refl in EE end.
      done.
Qed.

Lemma representative_dominates rest : forall first,
  let rep := representative first rest in
  rep ∈ first :: rest /\ forall x, x ∈ first :: rest -> dominates rep x.
Proof.
  unfold representative.
  induction rest as [|y ys IH]; intros first; cbn [fold_left].
  - split; [apply elem_of_cons; by left|].
    intros x Hx. apply list_elem_of_singleton in Hx as ->. apply dominates_refl.
  - destruct (IH (later first y)) as [Hin Hdom].
    destruct (later_dominates first y) as (D1 & D2 & Hor).
    assert (dominates (fold_left later ys (later first y)) (later first y)) as D0
      by (apply Hdom, elem_of_cons; by left).
    split.
    + apply elem_of_cons in Hin as [Hin|Hin].
      * rewrite Hin. destruct Hor as [-> | ->].
        -- apply elem_of_cons; by left.
        -- apply elem_of_cons; right. apply elem_of_cons; by left.
      * apply elem_of_cons; right. apply elem_of_cons; by right.
    + intros x Hx.
      apply elem_of_cons in Hx as [-> | Hx]; [by eapply dominates_trans|].
      apply elem_of_cons in Hx as [-> | Hx]; [by eapply dominates_trans|].
      apply Hdom, elem_of_cons. by right.
Qed.

(** ** Claims about the averager *)

Section AveragerClaims.

Context {W : Type}.
Variable FormatFloat : float64 -> string.
Variable emit : energyRow -> M W unit.

(** The row a group of readings is emitted as. *)
Lemma aggregate_groupOf first rest :
  Forall (fun x => shouldAggregateRow x = true) (first :: rest) ->
  Z.of_nat (List.length (first :: rest)) <= GoInt.max_int64 ->
  let rep := representative first rest in
  let avg := mean (List.map (fun x => Float64 (numericState x)) (first :: rest)) in
  accumulating (groupOf first rest)
  /\ aggregate FormatFloat (groupOf first rest)
     = {| stateID := stateID rep; entityID := entityID first; state := FormatFloat avg;
          numericState := mkNullFloat64 avg true; meta := meta rep;
          lastUpdated := lastUpdated rep |}.
Proof.
  intros Hel Hlen rep avg. unfold groupOf.
  assert (m_count (openGroup first) + Z.of_nat (List.length rest) <= GoInt.max_int64) as Hb.
  { cbn [openGroup m_count]. cbn [List.length] in Hlen. lia. }
  destruct (fold_accumulate_count rest (openGroup first)
              (openGroup_accumulating first) Hb) as [Hacc Hc].
  replace (m_count (openGroup first) + Z.of_nat (List.length rest))
    with (Z.of_nat (List.length (first :: rest))) in Hc
    by (cbn [openGroup m_count List.length]; lia).
  split; [exact Hacc|].
  destruct (fold_accumulate_representative rest (openGroup first) first
              eq_refl eq_refl eq_refl eq_refl) as (Et & Es & Em).
  destruct (fold_accumulate_key rest (openGroup first)) as [Ee _].
  unfold aggregate. rewrite Hc, Et, Es, Em, Ee, fold_accumulate_sum.
  fold (representative first rest). fold rep.
  assert (ntValid (lastUpdated rep) = true) as Hvalid.
  { destruct (representative_dominates rest first) as [Hin _]. fold rep in Hin.
    rewrite Forall_forall in Hel. specialize (Hel rep Hin).
    unfold shouldAggregateRow in Hel.
    destruct (ntValid (lastUpdated rep)); [done | discriminate]. }
  destruct (lastUpdated rep) as [t v]; cbn in Hvalid; subst v.
  subst avg. unfold mean. rewrite List.length_map.
  cbn [List.map fold_left openGroup m_sum m_entityID Time_]. reflexivity.
Qed.

(** C1.  The readings [first :: rest] are eligible and share the entity and
    the minute of [first]; the averager is idle when [first] arrives, or
    [first] has just opened the group by crossing a boundary.  Then adding
    them emits nothing, and the group is emitted exactly once, by the
    next [Flush] or by the next [Add] across the boundary: [emit] is applied
    once, to the row whose number is the mean of the readings, whose text is
    that mean formatted, and whose row id, metadata and timestamp are those of
    the representative. *)
Theorem minute_group_emitted_once
    (first : energyRow) (rest : list energyRow) (m0 : minuteAverager) (w : W) :
  m_active m0 = false ->
  Forall (fun x => shouldAggregateRow x = true) (first :: rest) ->
  Forall (fun x => entityID x = entityID first
                   /\ TruncateMinute (Time_ (lastUpdated x))
                      = TruncateMinute (Time_ (lastUpdated first))) rest ->
  Z.of_nat (List.length (first :: rest)) <= GoInt.max_int64 ->
  let rep := representative first rest in
  let avg := mean (List.map (fun x => Float64 (numericState x)) (first :: rest)) in
  let out := {| stateID := stateID rep; entityID := entityID first;
                state := FormatFloat avg; numericState := mkNullFloat64 avg true;
                meta := meta rep; lastUpdated := lastUpdated rep |} in
  addAll FormatFloat emit (first :: rest) (m0, w) = (inr tt, (groupOf first rest, w))
  /\ addAll FormatFloat emit rest (openGroup first, w) = (inr tt, (groupOf first rest, w))
  /\ Flush FormatFloat emit (groupOf first rest, w)
     = (let '(r, w') := emit out w in (r, (idleAverager, w')))
  /\ forall next,
       entityID next <> entityID first
       \/ TruncateMinute (Time_ (lastUpdated next))
          <> TruncateMinute (Time_ (lastUpdated first)) ->
       Add FormatFloat emit next (groupOf first rest, w)
       = match emit out w with
         | (inl e, w') => (inl e, (idleAverager, w'))
         | (inr _, w') => (inr tt, (openGroup next, w'))
         end.
Proof.
  intros Hidle Hel Hsame Hlen rep avg out.
  destruct (aggregate_groupOf first rest Hel Hlen) as [Hacc Hagg].
  fold rep avg out in Hagg.
  assert (addAll FormatFloat emit rest (openGroup first, w)
          = (inr tt, (groupOf first rest, w))) as Hrest.
  { destruct (addAll_sameGroup FormatFloat emit rest (openGroup first) w) as (E & _ & _).
    - apply openGroup_accumulating.
    - eapply Forall_impl; [exact Hsame|]. intros x [He Hm]. by split.
    - cbn [openGroup m_count]. cbn [List.length] in Hlen. lia.
    - exact E. }
  split; [|split; [|split]].
  - cbn [addAll]. unfold bind at 1. rewrite Add_idle by done. exact Hrest.
  - exact Hrest.
  - rewrite Flush_accumulating by done. by rewrite Hagg.
  - intros next Hnext. rewrite Add_boundary; [by rewrite Hagg | done |].
    unfold sameGroup, groupOf.
    destruct (fold_accumulate_key rest (openGroup first)) as [-> ->].
    cbn [openGroup m_entityID m_minute]. tauto.
Qed.

(** C3.  A reading of the open group's entity and minute is added without
    emitting; it becomes the representative when it is strictly later than the
    current one, or at the same instant with a larger row id, and otherwise the
    representative stays.  The representative of a whole group is therefore
    one of its readings that no reading is later than, and that no reading of
    the same instant has a larger row id than; [Flush] puts its row id,
    metadata and timestamp on the emitted row. *)
Theorem representative_rule (m : minuteAverager) (row : energyRow) (w : W) :
  accumulating m -> sameGroup m row ->
  let chosen m := (m_maxTime m, m_stateID m, m_meta m) in
  let m' := accumulate m row in
  Add FormatFloat emit row (m, w) = (inr tt, (m', w))
  /\ (After (Time_ (lastUpdated row)) (m_maxTime m) = true ->
      chosen m' = (Time_ (lastUpdated row), stateID row, meta row))
  /\ (Time_ (lastUpdated row) = m_maxTime m -> stateID row > m_stateID m ->
      chosen m' = (Time_ (lastUpdated row), stateID row, meta row))
  /\ (After (Time_ (lastUpdated row)) (m_maxTime m) = false ->
      (Time_ (lastUpdated row) = m_maxTime m -> stateID row <= m_stateID m) ->
      chosen m' = chosen m)
  /\ (forall first rest,
        let rep := representative first rest in
        chosen (groupOf first rest) = (Time_ (lastUpdated rep), stateID rep, meta rep)
        /\ rep ∈ first :: rest
        /\ forall x, x ∈ first :: rest ->
             le (Time_ (lastUpdated x)) (Time_ (lastUpdated rep))
             /\ (Time_ (lastUpdated x) = Time_ (lastUpdated rep) -> stateID x <= stateID rep))
  /\ stateID (aggregate FormatFloat m') = m_stateID m'
  /\ meta (aggregate FormatFloat m') = m_meta m'
  /\ lastUpdated (aggregate FormatFloat m') = mkNullTime (m_maxTime m') true.
Proof.
  intros Hacc Hsame chosen m'. pose proof Hacc as (Ha & _ & Hv).
  split; [by apply Add_sameGroup|].
  subst chosen m'. unfold accumulate, wins.
  cbn [m_maxTime m_stateID m_meta]. rewrite Hv. cbn [negb orb].
  repeat split.
  - intros ->. reflexivity.
  - intros -> Hgt. rewrite GoTimeFacts.Equal_refl.
    replace (stateID row >? m_stateID m) with true by lia.
    rewrite orb_true_r. reflexivity.
  - intros -> Hle. cbn [orb].
    destruct (Equal (Time_ (lastUpdated row)) (m_maxTime m)) eqn:EE; [|reflexivity].
    apply GoTimeFacts.Equal_eq in EE. specialize (Hle EE).
    replace (stateID row >? m_stateID m) with false by lia. reflexivity.
  - destruct (fold_accumulate_representative rest (openGroup first) first
                eq_refl eq_refl eq_refl eq_refl) as (Et & Es & Em).
    unfold groupOf, representative. cbn [m_maxTime m_stateID m_meta].
    by rewrite Et, Es, Em.
  - apply representative_dominates.
  - by apply (representative_dominates rest first).
  - by apply (representative_dominates rest first).
Qed.

End AveragerClaims.

(** ** What the averager does to the state behind [emit] *)

Section AveragerWorld.

Context {W : Type}.
Variable FormatFloat : float64 -> string.
Variable emit : energyRow -> M W unit.

(** A relation between the state before and after that each [emit] respects
    is respected by [Flush] and [Add]: they reach that state through [emit]
    only, at most once. *)
Variable R : W -> W -> Prop.
Hypothesis R_refl : forall w, R w w.
Hypothesis R_emit : forall row w, R w (snd (emit row w)).

Lemma Flush_respects m w : R w (snd (snd (Flush FormatFloat emit (m, w)))).
Proof.
  unfold Flush. mrun. destruct (negb (m_active m)); cbn [fst snd]; [apply R_refl|].
  destruct ((m_count m =? 0) || negb (m_maxTimeValid m)); cbn [fst snd]; [apply R_refl|].
  specialize (R_emit (aggregate FormatFloat m) w). unfold aggregate in R_emit.
  destruct (emit _ w) as [r w']. exact R_emit.
Qed.

Lemma Add_respects row m w : R w (snd (snd (Add FormatFloat emit row (m, w)))).
Proof.
  unfold Add. unfold bind at 1. unfold getM at 1. cbn [fst snd].
  destruct (m_active m && _).
  - unfold bind at 1. pose proof (Flush_respects m w) as HF.
    destruct (Flush FormatFloat emit (m, w)) as [[e|[]] [m1 w1]]; cbn [fst snd] in *;
      [exact HF|].
    mrun.
    repeat match goal with
           | |- context [if ?b then _ else _] => destruct b; mrun
           end;
      exact HF.
  - mrun.
    repeat match goal with
           | |- context [if ?b then _ else _] => destruct b; mrun
           end;
      apply R_refl.
Qed.

End AveragerWorld.

(** ** The batch writer *)

Section DriverFacts.

Variable ParseFloat : string -> option float64.
Variable FormatFloat : float64 -> string.
Variable Unmarshal : string -> result (gmap string any).
Variable pickString : any -> option string.
Variable DB : Type.
Variable ExecContext : string -> list sqlArg -> M DB unit.

Lemma flushBatch_empty (d : driver DB) :
  rowCount d = 0 -> flushBatch DB ExecContext d = (inr tt, d).
Proof. intros H. unfold flushBatch. mrun. by rewrite H. Qed.

Lemma flushBatch_exec (d : driver DB) :
  rowCount d <> 0 ->
  flushBatch DB ExecContext d
  = match ExecContext (upsertPrefix ++ valueSegments d ++ nl ++ upsertSuffix)
            (args d) (mysqlDB d) with
    | (inl e, db) =>
        (inl (fmt_Errorf "upsert mysql rows: %w" [] e),
         {| args := args d; valueSegments := valueSegments d; rowCount := rowCount d;
            entityWatermarks := entityWatermarks d; mysqlDB := db |})
    | (inr _, db) =>
        (inr tt,
         {| args := []; valueSegments := ""; rowCount := 0;
            entityWatermarks := entityWatermarks d; mysqlDB := db |})
    end.
Proof.
  intros H. unfold flushBatch. mrun.
  destruct (rowCount d =? 0) eqn:E; [lia|].
  unfold callExec.
  destruct (ExecContext _ (args d) (mysqlDB d)) as [[e|[]] db]; reflexivity.
Qed.

Lemma appendRow_eq (row : energyRow) (d : driver DB) :
  appendRow DB ExecContext row d
  = if rowCount (buffered DB row d) >=? energyBatchSize
    then flushBatch DB ExecContext (buffered DB row d)
    else (inr tt, buffered DB row d).
Proof.
  unfold appendRow, buffered. mrun.
  destruct (rowCount _ >=? energyBatchSize); reflexivity.
Qed.

Lemma flushBatch_watermarks (d : driver DB) :
  entityWatermarks (snd (flushBatch DB ExecContext d)) = entityWatermarks d.
Proof.
  destruct (Z.eq_dec (rowCount d) 0) as [H|H].
  - by rewrite flushBatch_empty.
  - rewrite flushBatch_exec by done.
    destruct (ExecContext _ _ _) as [[e|[]] db]; reflexivity.
Qed.

Lemma appendRow_watermarks (row : energyRow) (d : driver DB) :
  entityWatermarks (snd (appendRow DB ExecContext row d))
  = advance row (entityWatermarks d).
Proof.
  rewrite appendRow_eq.
  destruct (rowCount (buffered DB row d) >=? energyBatchSize).
  - by rewrite flushBatch_watermarks.
  - reflexivity.
Qed.

Lemma appendAll_snoc (rows : list energyRow) (x : energyRow) : forall d : driver DB,
  appendAll DB ExecContext (List.app rows [x]) d
  = (appendAll DB ExecContext rows ;; appendRow DB ExecContext x) d.
Proof.
  induction rows as [|y ys IH]; intros d; cbn [List.app appendAll].
  - unfold bind, ret. by destruct (appendRow DB ExecContext x d) as [[e|[]] d'].
  - rewrite bind_assoc. unfold bind at 1 2.
    destruct (appendRow DB ExecContext y d) as [[e|[]] d']; [done|].
    rewrite IH. reflexivity.
Qed.

Lemma buffered_holding (rows : list energyRow) (x : energyRow) (d : driver DB) :
  (List.length rows < 500)%nat ->
  buffered DB x (holding rows d) = holding (List.app rows [x]) d.
Proof.
  intros Hlen. unfold buffered, holding.
  cbn [args valueSegments rowCount entityWatermarks mysqlDB].
  rewrite flat_map_app, length_app. cbn [flat_map List.length].
  rewrite app_nil_r.
  replace (List.length rows + 1)%nat with (S (List.length rows)) by lia.
  cbn [valueList].
  rewrite GoIntFacts.wrap64_id
    by (unfold GoInt.in_int64, GoInt.min_int64, GoInt.max_int64; lia).
  unfold advanceAll. rewrite fold_left_app. cbn [fold_left].
  f_equal; [| lia].
  destruct (List.length rows) as [|n] eqn:E; cbn [Nat.ltb Nat.leb]; [done|].
  replace (Z.of_nat (S n) >? 0) with true by (symmetry; apply Z.gtb_lt; lia).
  reflexivity.
Qed.

(** Fewer than 500 rows appended to an empty buffer stay in the buffer:
    nothing is sent to the sink. *)
Lemma appendAll_below (rows : list energyRow) (d : driver DB) :
  args d = [] -> valueSegments d = "" -> rowCount d = 0 ->
  (List.length rows < 500)%nat ->
  appendAll DB ExecContext rows d = (inr tt, holding rows d).
Proof.
  intros Ha Hv Hc. induction rows as [|x rows IH] using rev_ind; intros Hlen.
  - cbn. unfold ret, holding. cbn. destruct d; cbn in *; by subst.
  - rewrite length_app in Hlen. cbn [List.length] in Hlen.
    rewrite appendAll_snoc. unfold bind. rewrite IH by lia.
    rewrite appendRow_eq, buffered_holding by lia.
    replace (rowCount (holding (List.app rows [x]) d) >=? energyBatchSize) with false;
      [reflexivity|].
    unfold holding, energyBatchSize. cbn [rowCount]. rewrite length_app.
    cbn [List.length]. rewrite Z.geb_leb. symmetry. apply Z.leb_gt. lia.
Qed.

End DriverFacts.

Section BatchClaims.

Variable DB : Type.
Variable ExecContext : string -> list sqlArg -> M DB unit.

(** C6.  From an empty buffer: [flushBatch] sends nothing; fewer than 500
    appended rows are only buffered, and a following [flushBatch] sends them in
    one statement; of exactly 500 rows the first 499 are only buffered and the
    500th append sends all 500 in one statement.  When that statement succeeds
    the buffer is empty again; when it fails the error is returned and the
    buffer is left as it was. *)
Theorem batch_boundary (rows : list energyRow) (d : driver DB) :
  args d = [] -> valueSegments d = "" -> rowCount d = 0 ->
  let sent :=
    match ExecContext (batchQuery (List.length rows)) (flat_map rowArgs rows) (mysqlDB d) with
    | (inl e, db) =>
        (inl (fmt_Errorf "upsert mysql rows: %w" [] e),
         {| args := flat_map rowArgs rows;
            valueSegments := valueList (List.length rows);
            rowCount := Z.of_nat (List.length rows);
            entityWatermarks := advanceAll rows (entityWatermarks d);
            mysqlDB := db |})
    | (inr _, db) =>
        (inr tt,
         {| args := []; valueSegments := ""; rowCount := 0;
            entityWatermarks := advanceAll rows (entityWatermarks d);
            mysqlDB := db |})
    end in
  flushBatch DB ExecContext d = (inr tt, d)
  /\ ((List.length rows < 500)%nat ->
      appendAll DB ExecContext rows d = (inr tt, holding rows d)
      /\ mysqlDB (holding rows d) = mysqlDB d
      /\ (rows <> [] -> flushBatch DB ExecContext (holding rows d) = sent))
  /\ (List.length rows = 500%nat ->
      exists front last,
        rows = List.app front [last]
        /\ appendAll DB ExecContext front d = (inr tt, holding front d)
        /\ mysqlDB (holding front d) = mysqlDB d
        /\ appendAll DB ExecContext rows d = sent).
Proof.
  intros Ha Hv Hc sent.
  assert (forall rs : list energyRow, rs <> [] ->
            flushBatch DB ExecContext (holding rs d)
            = match ExecContext (batchQuery (List.length rs)) (flat_map rowArgs rs)
                      (mysqlDB d) with
              | (inl e, db) =>
                  (inl (fmt_Errorf "upsert mysql rows: %w" [] e),
                   {| args := flat_map rowArgs rs;
                      valueSegments := valueList (List.length rs);
                      rowCount := Z.of_nat (List.length rs);
                      entityWatermarks := advanceAll rs (entityWatermarks d);
                      mysqlDB := db |})
              | (inr _, db) =>
                  (inr tt,
                   {| args := []; valueSegments := ""; rowCount := 0;
                      entityWatermarks := advanceAll rs (entityWatermarks d);
                      mysqlDB := db |})
              end) as Hflush.
  { intros rs Hne. rewrite flushBatch_exec.
    - reflexivity.
    - unfold holding. cbn [rowCount]. destruct rs; [done | cbn [List.length]; lia]. }
  split; [by apply flushBatch_empty|]. split.
  - intros Hlen. split; [by apply appendAll_below|]. split; [reflexivity|].
    intros Hne. by apply Hflush.
  - intros Hlen.
    destruct (exists_last (l := rows)) as (front & last & ->).
    { intros ->. discriminate. }
    rewrite length_app in Hlen. cbn [List.length] in Hlen.
    exists front, last. split; [reflexivity|].
    split; [apply appendAll_below; auto; lia|]. split; [reflexivity|].
    rewrite appendAll_snoc. unfold bind.
    rewrite appendAll_below by (auto; lia).
    rewrite appendRow_eq, buffered_holding by lia.
    replace (rowCount (holding (List.app front [last]) d) >=? energyBatchSize) with true.
    + apply Hflush. by destruct front.
    + unfold holding, energyBatchSize. cbn [rowCount]. rewrite length_app.
      cbn [List.length]. rewrite Z.geb_leb. symmetry. apply Z.leb_le. lia.
Qed.

End BatchClaims.

(** ** Watermarks *)

Lemma watermarks_le_refl (a : gmap string Time) : watermarks_le a a.
Proof. intros e t H. exists t. split; [done | apply GoTimeFacts.le_refl]. Qed.

Lemma watermarks_le_trans (a b c : gmap string Time) :
  watermarks_le a b -> watermarks_le b c -> watermarks_le a c.
Proof.
  intros H1 H2 e t H. destruct (H1 e t H) as (t1 & Hb & L1).
  destruct (H2 e t1 Hb) as (t2 & Hc & L2). exists t2. split; [done|].
  eapply GoTimeFacts.le_trans; eauto.
Qed.

(** [advance] either leaves the map or raises the entry of the row's entity. *)
Lemma advance_cases (row : energyRow) (wm : gmap string Time) :
  (ntValid (lastUpdated row) = true
   /\ (wm !! entityID row = None
       \/ exists current, wm !! entityID row = Some current
                          /\ After (Time_ (lastUpdated row)) current = true)
   /\ advance row wm = <[entityID row := Time_ (lastUpdated row)]> wm)
  \/ ((ntValid (lastUpdated row) = false
       \/ exists current, wm !! entityID row = Some current
                          /\ After (Time_ (lastUpdated row)) current = false)
      /\ advance row wm = wm).
Proof.
  unfold advance. destruct (ntValid (lastUpdated row)); [|right; auto].
  destruct (wm !! entityID row) as [current|] eqn:E; [|left; auto].
  destruct (After (Time_ (lastUpdated row)) current) eqn:EA.
  - left. repeat split; eauto.
  - right. split; eauto.
Qed.

Lemma advance_le (row : energyRow) (wm : gmap string Time) :
  watermarks_le wm (advance row wm).
Proof.
  destruct (advance_cases row wm) as [(_ & Hc & ->) | (_ & ->)];
    [|apply watermarks_le_refl].
  intros e t H. destruct (decide (e = entityID row)) as [->|Hne].
  - rewrite lookup_insert_eq. eexists. split; [done|].
    destruct Hc as [Hc | (c & Hc & HA)]; [congruence|].
    rewrite Hc in H. injection H as <-. by apply GoTimeFacts.After_le.
  - rewrite lookup_insert_ne by done. exists t. split; [done | apply GoTimeFacts.le_refl].
Qed.

Lemma advanceAll_le (rows : list energyRow) : forall wm : gmap string Time,
  watermarks_le wm (advanceAll rows wm).
Proof.
  unfold advanceAll. induction rows as [|row rows IH]; intros wm; cbn [fold_left].
  - apply watermarks_le_refl.
  - eapply watermarks_le_trans; [apply advance_le | apply IH].
Qed.

Lemma advanceAll_app (a b : list energyRow) (wm : gmap string Time) :
  advanceAll (List.app a b) wm = advanceAll b (advanceAll a wm).
Proof. unfold advanceAll. apply fold_left_app. Qed.

(** ** The row loop *)

Section LoopFacts.

Variable ParseFloat : string -> option float64.
Variable FormatFloat : float64 -> string.
Variable Unmarshal : string -> result (gmap string any).
Variable pickString : any -> option string.
Variable DB : Type.
Variable ExecContext : string -> list sqlArg -> M DB unit.

(** The four ways through the loop body. *)
Lemma loopBody_cases (r : scanned) (s : minuteAverager * driver DB) :
  match floatToNullTime (scan_lastUpdatedVal r) with
  | inl err =>
      loopBody ParseFloat FormatFloat Unmarshal pickString DB ExecContext r s
      = (inl (fmt_Errorf "convert last_updated_ts for state_id %d: %w" [scan_stateID r] err), s)
  | inr lastUpdated =>
      if alreadySynced lastUpdated (entityWatermarks (snd s)) (scan_entityID r) then
        loopBody ParseFloat FormatFloat Unmarshal pickString DB ExecContext r s
        = (inr Skipped, s)
      else
        match extractEnergyMetadata Unmarshal pickString (scan_attributesJSON r) with
        | inl err =>
            loopBody ParseFloat FormatFloat Unmarshal pickString DB ExecContext r s
            = (inl (fmt_Errorf "parse attributes for state_id %d: %w" [scan_stateID r] err), s)
        | inr meta =>
            let row := {| stateID := scan_stateID r; entityID := scan_entityID r;
                          state := scan_state r;
                          numericState := parseNumericState ParseFloat (scan_state r);
                          meta := meta; lastUpdated := lastUpdated |} in
            if shouldAggregateRow row then
              loopBody ParseFloat FormatFloat Unmarshal pickString DB ExecContext r s
              = (Add FormatFloat (appendRow DB ExecContext) row ;; ret Aggregated) s
            else
              loopBody ParseFloat FormatFloat Unmarshal pickString DB ExecContext r s
              = (Flush FormatFloat (appendRow DB ExecContext) ;;
                 callDriver DB (appendRow DB ExecContext row) ;;
                 ret PassedThrough) s
        end
  end.
Proof.
  destruct (floatToNullTime (scan_lastUpdatedVal r)) as [err|lastUpdated] eqn:EF.
  { unfold loopBody. by rewrite EF. }
  destruct (alreadySynced _ _ _) eqn:ES.
  { unfold loopBody. rewrite EF. unfold bind at 1. unfold get at 1. cbv beta iota.
    by rewrite ES. }
  destruct (extractEnergyMetadata _ _ _) as [err|meta] eqn:EM.
  { unfold loopBody. rewrite EF. unfold bind at 1. unfold get at 1. cbv beta iota.
    by rewrite ES, EM. }
  cbn zeta. destruct (shouldAggregateRow _) eqn:EA.
  - unfold loopBody. rewrite EF. unfold bind at 1. unfold get at 1. cbv beta iota.
    rewrite ES, EM. cbn zeta. by rewrite EA.
  - unfold loopBody. rewrite EF. unfold bind at 1. unfold get at 1. cbv beta iota.
    rewrite ES, EM. cbn zeta. by rewrite EA.
Qed.

(** Only the watermark test ends an iteration with [Skipped], and it leaves the
    state alone. *)
Lemma loopBody_Skipped_state (r : scanned) (s s' : minuteAverager * driver DB) :
  loopBody ParseFloat FormatFloat Unmarshal pickString DB ExecContext r s = (inr Skipped, s') ->
  s' = s.
Proof.
  pose proof (loopBody_cases r s) as Hc.
  destruct (floatToNullTime _) as [err|lastUpdated]; [rewrite Hc; congruence|].
  destruct (alreadySynced _ _ _); [rewrite Hc; congruence|].
  destruct (extractEnergyMetadata _ _ _) as [err|meta]; [rewrite Hc; congruence|].
  cbn zeta in Hc. destruct (shouldAggregateRow _); rewrite Hc; unfold bind, ret.
  - destruct (Add _ _ _ s) as [[e|[]] s1]; congruence.
  - destruct (Flush _ _ s) as [[e|[]] s1]; [congruence|].
    destruct (callDriver _ _ s1) as [[e|[]] s2]; congruence.
Qed.

(** C4.  An iteration ends at the watermark [continue] exactly when the
    converted timestamp is valid, the map has an entry for the entity, and the
    timestamp is not after it; the state is then what it was.  A reading
    without timestamp, or of an entity without entry, is not skipped. *)
Theorem watermark_skip (r : scanned) (s : minuteAverager * driver DB) :
  ((exists s', loopBody ParseFloat FormatFloat Unmarshal pickString DB ExecContext r s
               = (inr Skipped, s'))
   <-> exists t watermark,
         floatToNullTime (scan_lastUpdatedVal r) = inr (mkNullTime t true)
         /\ entityWatermarks (snd s) !! scan_entityID r = Some watermark
         /\ After t watermark = false)
  /\ (forall s', loopBody ParseFloat FormatFloat Unmarshal pickString DB ExecContext r s
                 = (inr Skipped, s') -> s' = s)
  /\ (forall lastUpdated,
        floatToNullTime (scan_lastUpdatedVal r) = inr lastUpdated ->
        ntValid lastUpdated = false
        \/ entityWatermarks (snd s) !! scan_entityID r = None ->
        forall s', loopBody ParseFloat FormatFloat Unmarshal pickString DB ExecContext r s
                   <> (inr Skipped, s')).
Proof.
  pose proof (loopBody_cases r s) as Hc.
  assert (forall row s',
            (Add FormatFloat (appendRow DB ExecContext) row ;; ret Aggregated) s
            <> (inr Skipped, s')) as HnA.
  { intros row s'. unfold bind, ret.
    destruct (Add _ _ row s) as [[e|[]] s1]; congruence. }
  assert (forall row s',
            (Flush FormatFloat (appendRow DB ExecContext) ;;
             callDriver DB (appendRow DB ExecContext row) ;;
             ret PassedThrough) s <> (inr Skipped, s')) as HnP.
  { intros row s'. unfold bind, ret.
    destruct (Flush _ _ s) as [[e|[]] s1]; [congruence|].
    destruct (callDriver _ _ s1) as [[e|[]] s2]; congruence. }
  destruct (floatToNullTime (scan_lastUpdatedVal r)) as [err|lastUpdated] eqn:EF.
  { rewrite Hc. split; [split|split].
    - intros [s' H]. congruence.
    - intros (t & w & H & _). congruence.
    - congruence.
    - intros lu H. congruence. }
  unfold alreadySynced in Hc.
  destruct lastUpdated as [t valid]. cbn [ntValid Time_] in Hc.
  destruct valid; cbn [andb] in Hc.
  - destruct (entityWatermarks (snd s) !! scan_entityID r) as [w|] eqn:EW.
    + destruct (After t w) eqn:EA; cbn [negb] in Hc.
      * assert (forall s', loopBody ParseFloat FormatFloat Unmarshal pickString DB
                             ExecContext r s <> (inr Skipped, s')) as Hno.
        { intros s'. destruct (extractEnergyMetadata _ _ _); [rewrite Hc; congruence|].
          cbn zeta in Hc. destruct (shouldAggregateRow _); rewrite Hc; auto. }
        split; [split|split].
        -- intros [s' H]. by apply Hno in H.
        -- intros (t0 & w0 & [= <-] & [= <-] & H). congruence.
        -- intros s' H. by apply Hno in H.
        -- intros lu _ _. apply Hno.
      * split; [split|split].
        -- intros _. eauto.
        -- intros _. eauto.
        -- intros s' H. congruence.
        -- intros lu [= <-] [H|H]; cbn in H; congruence.
    + assert (forall s', loopBody ParseFloat FormatFloat Unmarshal pickString DB
                           ExecContext r s <> (inr Skipped, s')) as Hno.
      { intros s'. destruct (extractEnergyMetadata _ _ _); [rewrite Hc; congruence|].
        cbn zeta in Hc. destruct (shouldAggregateRow _); rewrite Hc; auto. }
      split; [split|split].
      * intros [s' H]. by apply Hno in H.
      * intros (t0 & w0 & _ & H & _). congruence.
      * intros s' H. by apply Hno in H.
      * intros lu _ _. apply Hno.
  - assert (forall s', loopBody ParseFloat FormatFloat Unmarshal pickString DB
                         ExecContext r s <> (inr Skipped, s')) as Hno.
    { intros s'. destruct (extractEnergyMetadata _ _ _); [rewrite Hc; congruence|].
      cbn zeta in Hc. destruct (shouldAggregateRow _); rewrite Hc; auto. }
    split; [split|split].
    + intros [s' H]. by apply Hno in H.
    + intros (t0 & w0 & [=] & _).
    + intros s' H. by apply Hno in H.
    + intros lu _ _. apply Hno.
Qed.

End LoopFacts.

Section WatermarkClaims.

Variable ParseFloat : string -> option float64.
Variable FormatFloat : float64 -> string.
Variable Unmarshal : string -> result (gmap string any).
Variable pickString : any -> option string.
Variable DB : Type.
Variable ExecContext : string -> list sqlArg -> M DB unit.

Lemma advancedBy_refl (d : driver DB) : advancedBy d d.
Proof. by exists []. Qed.

Lemma advancedBy_trans (a b c : driver DB) :
  advancedBy a b -> advancedBy b c -> advancedBy a c.
Proof.
  intros [r1 H1] [r2 H2]. exists (List.app r1 r2).
  by rewrite advanceAll_app, <- H1.
Qed.

Lemma advancedBy_le (a b : driver DB) :
  advancedBy a b -> watermarks_le (entityWatermarks a) (entityWatermarks b).
Proof. intros [rows ->]. apply advanceAll_le. Qed.

Lemma appendRow_advancedBy (row : energyRow) (d : driver DB) :
  advancedBy d (snd (appendRow DB ExecContext row d)).
Proof. exists [row]. by rewrite appendRow_watermarks. Qed.

Lemma loopBody_advancedBy (r : scanned) (s : minuteAverager * driver DB) :
  advancedBy (snd s)
    (snd (snd (loopBody ParseFloat FormatFloat Unmarshal pickString DB ExecContext r s))).
Proof.
  pose proof (loopBody_cases ParseFloat FormatFloat Unmarshal pickString DB ExecContext r s)
    as Hc.
  destruct (floatToNullTime _) as [err|lastUpdated]; [rewrite Hc; apply advancedBy_refl|].
  destruct (alreadySynced _ _ _); [rewrite Hc; apply advancedBy_refl|].
  destruct (extractEnergyMetadata _ _ _) as [err|meta];
    [rewrite Hc; apply advancedBy_refl|].
  cbn zeta in Hc. destruct s as [m d]. cbn [snd] in *.
  destruct (shouldAggregateRow _); rewrite Hc; clear Hc.
  - unfold bind, ret.
    match goal with
    | |- context [Add _ _ ?row (m, d)] =>
        pose proof (Add_respects FormatFloat (appendRow DB ExecContext) advancedBy
                      advancedBy_refl appendRow_advancedBy row m d) as HA;
        destruct (Add FormatFloat (appendRow DB ExecContext) row (m, d)) as [[e|[]] s1]
    end; exact HA.
  - unfold bind, ret.
    pose proof (Flush_respects FormatFloat (appendRow DB ExecContext) advancedBy
                  advancedBy_refl appendRow_advancedBy m d) as HF.
    destruct (Flush FormatFloat (appendRow DB ExecContext) (m, d)) as [[e|[]] [m1 d1]];
      cbn [snd] in *; [exact HF|].
    unfold callDriver. cbn [fst snd].
    match goal with
    | |- context [appendRow DB ExecContext ?row d1] =>
        pose proof (appendRow_advancedBy row d1) as HA;
        destruct (appendRow DB ExecContext row d1) as [[e|[]] d2]
    end; cbn [snd] in *; eapply advancedBy_trans; eauto.
Qed.

Lemma forRows_advancedBy (its : list (result scanned)) :
  forall s : minuteAverager * driver DB,
  advancedBy (snd s)
    (snd (snd (forRows ParseFloat FormatFloat Unmarshal pickString DB ExecContext its s))).
Proof.
  induction its as [|[err|r] its IH]; intros s; cbn [forRows].
  - apply advancedBy_refl.
  - apply advancedBy_refl.
  - unfold bind. pose proof (loopBody_advancedBy r s) as H1.
    destruct (loopBody _ _ _ _ _ _ r s) as [[e|o] s1]; cbn [snd] in *; [exact H1|].
    eapply advancedBy_trans; [exact H1 | apply IH].
Qed.

Lemma mainLoop_advancedBy (src : cursor) (s : minuteAverager * driver DB) :
  advancedBy (snd s)
    (snd (snd (mainLoop ParseFloat FormatFloat Unmarshal pickString DB ExecContext src s))).
Proof.
  unfold mainLoop. unfold bind at 1.
  pose proof (forRows_advancedBy (items src) s) as H1.
  destruct (forRows _ _ _ _ _ _ (items src) s) as [[e|[]] s1]; cbn [snd] in *;
    [exact H1|].
  unfold bind at 1.
  destruct (rowsErr src) as [err|]; [exact H1|]. unfold ret at 1.
  unfold bind. destruct s1 as [m1 d1]. cbn [snd] in *.
  pose proof (Flush_respects FormatFloat (appendRow DB ExecContext) advancedBy
                advancedBy_refl appendRow_advancedBy m1 d1) as HF.
  destruct (Flush FormatFloat (appendRow DB ExecContext) (m1, d1)) as [[e|[]] [m2 d2]];
    cbn [snd] in *; [eapply advancedBy_trans; eauto|].
  unfold callDriver. cbn [fst snd].
  pose proof (flushBatch_watermarks DB ExecContext d2) as HB.
  destruct (flushBatch DB ExecContext d2) as [r d3]. cbn [snd] in *.
  eapply advancedBy_trans; [exact H1|]. eapply advancedBy_trans; [exact HF|].
  exists []. exact HB.
Qed.

(** C7.  Over the row loop and what follows it, and over each iteration, the
    watermark map changes only by [advance] applied to appended rows, so every
    entry stays or moves later and none disappears.  An iteration that ends at
    the watermark [continue] leaves the map as it was.  [appendRow] applies
    [advance] to its row, whether or not the batch is then written; [advance]
    sets the entry of the row's entity to the row's timestamp when that
    timestamp is valid and the entity has no entry or an earlier one, and is
    the identity otherwise. *)
Theorem watermarks_monotone :
  (forall (src : cursor) (s : minuteAverager * driver DB),
     let s' := snd (mainLoop ParseFloat FormatFloat Unmarshal pickString DB ExecContext src s) in
     advancedBy (snd s) (snd s')
     /\ watermarks_le (entityWatermarks (snd s)) (entityWatermarks (snd s')))
  /\ (forall (r : scanned) (s : minuteAverager * driver DB),
        let s' := snd (loopBody ParseFloat FormatFloat Unmarshal pickString DB ExecContext r s) in
        advancedBy (snd s) (snd s')
        /\ watermarks_le (entityWatermarks (snd s)) (entityWatermarks (snd s')))
  /\ (forall (r : scanned) (s s' : minuteAverager * driver DB),
        loopBody ParseFloat FormatFloat Unmarshal pickString DB ExecContext r s
        = (inr Skipped, s') ->
        entityWatermarks (snd s') = entityWatermarks (snd s))
  /\ (forall (row : energyRow) (d : driver DB),
        entityWatermarks (snd (appendRow DB ExecContext row d))
        = advance row (entityWatermarks d))
  /\ (forall (row : energyRow) (wm : gmap string Time),
        watermarks_le wm (advance row wm)
        /\ ((ntValid (lastUpdated row) = true
             /\ (wm !! entityID row = None
                 \/ exists current, wm !! entityID row = Some current
                                    /\ After (Time_ (lastUpdated row)) current = true)
             /\ advance row wm = <[entityID row := Time_ (lastUpdated row)]> wm)
            \/ ((ntValid (lastUpdated row) = false
                 \/ exists current, wm !! entityID row = Some current
                                    /\ After (Time_ (lastUpdated row)) current = false)
                /\ advance row wm = wm))).
Proof.
  split; [|split; [|split; [|split]]].
  - intros src s s'. split; [apply mainLoop_advancedBy|].
    apply advancedBy_le, mainLoop_advancedBy.
  - intros r s s'. split; [apply loopBody_advancedBy|].
    apply advancedBy_le, loopBody_advancedBy.
  - intros r s s' H.
    by rewrite (loopBody_Skipped_state ParseFloat FormatFloat Unmarshal pickString DB
                  ExecContext r s s' H).
  - apply appendRow_watermarks.
  - intros row wm. split; [apply advance_le | apply advance_cases].
Qed.

End WatermarkClaims.

(** ** Attribute payloads and numeric states *)

Section ExtractionClaims.

Variable ParseFloat : string -> option float64.
Variable FormatFloat : float64 -> string.
Variable Unmarshal : string -> result (gmap string any).
Variable pickString : any -> option string.
Variable DB : Type.
Variable ExecContext : string -> list sqlArg -> M DB unit.

(** What both extractors do with empty and with undecodable payloads, for any
    decoder.  [extractEnergyMetadata] trims the payload first;
    [extractCoordinates] compares the payload itself with the empty string. *)
Lemma attribute_payloads (raw : string) :
  (GoStrings.TrimSpace raw = "" ->
   extractEnergyMetadata Unmarshal pickString raw = inr emptyMetadata)
  /\ (forall err, GoStrings.TrimSpace raw <> "" ->
        Unmarshal (GoStrings.TrimSpace raw) = inl err ->
        extractEnergyMetadata Unmarshal pickString raw
        = inl (fmt_Errorf "unmarshal shared_attrs: %w" [] err))
  /\ (raw = "" ->
      extractCoordinates ParseFloat Unmarshal raw = inr (nullFloat64, nullFloat64, nullFloat64))
  /\ (forall err, raw <> "" -> Unmarshal raw = inl err ->
        extractCoordinates ParseFloat Unmarshal raw
        = inl (fmt_Errorf "unmarshal shared_attrs: %w" [] err)).
Proof.
  unfold extractEnergyMetadata, extractCoordinates. repeat split.
  - intros ->. reflexivity.
  - intros err Hne ->. destruct (decide _); [done | reflexivity].
  - intros ->. reflexivity.
  - intros err Hne ->. destruct (decide _); [done | reflexivity].
Qed.


End ExtractionClaims.


(** ** Group boundaries *)

Section BoundaryClaims.

Variable ParseFloat : string -> option float64.
Variable FormatFloat : float64 -> string.
Variable Unmarshal : string -> result (gmap string any).
Variable pickString : any -> option string.
Variable DB : Type.
Variable ExecContext : string -> list sqlArg -> M DB unit.

(** A reading that is not eligible, met while a group is open: the group's
    aggregate is appended, then the reading's own row, and the averager is
    idle afterwards. *)
Lemma loopBody_interrupts (m : minuteAverager) (d : driver DB) (r : scanned) lu meta0 :
  accumulating m ->
  floatToNullTime (scan_lastUpdatedVal r) = inr lu ->
  alreadySynced lu (entityWatermarks d) (scan_entityID r) = false ->
  extractEnergyMetadata Unmarshal pickString (scan_attributesJSON r) = inr meta0 ->
  let row := {| stateID := scan_stateID r; entityID := scan_entityID r;
                state := scan_state r;
                numericState := parseNumericState ParseFloat (scan_state r);
                meta := meta0; lastUpdated := lu |} in
  shouldAggregateRow row = false ->
  loopBody ParseFloat FormatFloat Unmarshal pickString DB ExecContext r (m, d)
  = match appendRow DB ExecContext (aggregate FormatFloat m) d with
    | (inl e, d1) => (inl e, (idleAverager, d1))
    | (inr _, d1) =>
        match appendRow DB ExecContext row d1 with
        | (inl e, d2) => (inl e, (idleAverager, d2))
        | (inr _, d2) => (inr PassedThrough, (idleAverager, d2))
        end
    end.
Proof.
  intros Hacc HF HS HM row Hel.
  pose proof (loopBody_cases ParseFloat FormatFloat Unmarshal pickString DB ExecContext
                r (m, d)) as Hc.
  cbn [snd] in Hc. rewrite HF, HS, HM in Hc. cbn zeta in Hc. fold row in Hc.
  rewrite Hel in Hc. rewrite Hc. unfold bind at 1.
  rewrite Flush_accumulating by done.
  destruct (appendRow DB ExecContext (aggregate FormatFloat m) d) as [[e|[]] d1];
    [reflexivity|].
  unfold bind, callDriver, ret. cbn [fst snd].
  destruct (appendRow DB ExecContext row d1) as [[e|[]] d2]; reflexivity.
Qed.

(** An eligible reading that passes the watermark test while the averager is
    idle opens a group of its own. *)
Lemma loopBody_opens (m : minuteAverager) (d : driver DB) (r : scanned) lu meta0 :
  m_active m = false ->
  floatToNullTime (scan_lastUpdatedVal r) = inr lu ->
  alreadySynced lu (entityWatermarks d) (scan_entityID r) = false ->
  extractEnergyMetadata Unmarshal pickString (scan_attributesJSON r) = inr meta0 ->
  let row := {| stateID := scan_stateID r; entityID := scan_entityID r;
                state := scan_state r;
                numericState := parseNumericState ParseFloat (scan_state r);
                meta := meta0; lastUpdated := lu |} in
  shouldAggregateRow row = true ->
  loopBody ParseFloat FormatFloat Unmarshal pickString DB ExecContext r (m, d)
  = (inr Aggregated, (openGroup row, d)).
Proof.
  intros Hidle HF HS HM row Hel.
  pose proof (loopBody_cases ParseFloat FormatFloat Unmarshal pickString DB ExecContext
                r (m, d)) as Hc.
  cbn [snd] in Hc. rewrite HF, HS, HM in Hc. cbn zeta in Hc. fold row in Hc.
  rewrite Hel in Hc. rewrite Hc. unfold bind at 1.
  rewrite Add_idle by done. reflexivity.
Qed.

(** C2, as the code has it.  With a group open: an eligible reading of
    another entity or minute makes [Add] emit the open group and then open a
    group holding that reading alone (nothing is opened when the emission
    fails); a reading that is not eligible makes the loop body emit the open
    group and then append the reading's own row.  An eligible reading that
    comes next starts a new group, also when it has the entity and minute of
    the group just emitted, provided it passes the watermark test, which by
    then compares it with the rows appended meanwhile. *)
Theorem group_boundaries (m : minuteAverager) (d : driver DB) :
  accumulating m ->
  (forall row,
     entityID row <> m_entityID m
     \/ TruncateMinute (Time_ (lastUpdated row)) <> m_minute m ->
     Add FormatFloat (appendRow DB ExecContext) row (m, d)
     = match appendRow DB ExecContext (aggregate FormatFloat m) d with
       | (inl e, d1) => (inl e, (idleAverager, d1))
       | (inr _, d1) => (inr tt, (openGroup row, d1))
       end)
  /\ (forall (r : scanned) lu meta0,
        floatToNullTime (scan_lastUpdatedVal r) = inr lu ->
        alreadySynced lu (entityWatermarks d) (scan_entityID r) = false ->
        extractEnergyMetadata Unmarshal pickString (scan_attributesJSON r) = inr meta0 ->
        let row := {| stateID := scan_stateID r; entityID := scan_entityID r;
                      state := scan_state r;
                      numericState := parseNumericState ParseFloat (scan_state r);
                      meta := meta0; lastUpdated := lu |} in
        shouldAggregateRow row = false ->
        loopBody ParseFloat FormatFloat Unmarshal pickString DB ExecContext r (m, d)
        = match appendRow DB ExecContext (aggregate FormatFloat m) d with
          | (inl e, d1) => (inl e, (idleAverager, d1))
          | (inr _, d1) =>
              match appendRow DB ExecContext row d1 with
              | (inl e, d2) => (inl e, (idleAverager, d2))
              | (inr _, d2) => (inr PassedThrough, (idleAverager, d2))
              end
          end)
  /\ (forall (r : scanned) (d2 : driver DB) lu meta0,
        floatToNullTime (scan_lastUpdatedVal r) = inr lu ->
        alreadySynced lu (entityWatermarks d2) (scan_entityID r) = false ->
        extractEnergyMetadata Unmarshal pickString (scan_attributesJSON r) = inr meta0 ->
        let row := {| stateID := scan_stateID r; entityID := scan_entityID r;
                      state := scan_state r;
                      numericState := parseNumericState ParseFloat (scan_state r);
                      meta := meta0; lastUpdated := lu |} in
        shouldAggregateRow row = true ->
        loopBody ParseFloat FormatFloat Unmarshal pickString DB ExecContext r
          (idleAverager, d2)
        = (inr Aggregated, (openGroup row, d2))).
Proof.
  intros Hacc. split; [|split].
  - intros row Hne. apply Add_boundary; [done|]. unfold sameGroup. tauto.
  - intros r lu meta0 HF HS HM row Hel. by apply loopBody_interrupts.
  - intros r d2 lu meta0 HF HS HM row Hel. by apply loopBody_opens.
Qed.

End BoundaryClaims.

(** ** The pipeline on the sample data *)

(** The scenario of the specification: [3] at 10:00:40 and [6] at 10:01:10. *)
Example threeReadings_run :
  runLogged threeReadings [] = (inr tt, [(batchQuery 2, List.app (rowArgs rowAB) (rowArgs rowC'))]).
Proof. vm_compute. reflexivity. Qed.

(** With increasing instants the interrupted minute is emitted as two
    aggregates, around the raw row. *)
Example interleaved_run :
  runLogged interleaved []
  = (inr tt,
     [(batchQuery 3,
       List.app
         (rowArgs {| stateID := 1; entityID := voltage; state := "2"; numericState := number 2;
                     meta := emptyMetadata; lastUpdated := at_ (tenOClock + 5) |})
         (List.app
            (rowArgs {| stateID := 2; entityID := voltage; state := "unavailable";
                        numericState := nullFloat64; meta := emptyMetadata;
                        lastUpdated := at_ (tenOClock + 20) |})
            (rowArgs {| stateID := 3; entityID := voltage; state := "4";
                        numericState := number 4; meta := emptyMetadata;
                        lastUpdated := at_ (tenOClock + 40) |})))]).
Proof. vm_compute. reflexivity. Qed.

(** C2 as stated fails on [interleavedTie].  Its first and third reading are
    eligible and share entity and minute, the second is not eligible and lies
    between them, and the run writes two rows only: the aggregate of the first
    reading and the raw row.  The third reading is not after the watermark the
    raw row has set, so it ends at the watermark [continue] and no second
    aggregate is emitted. *)
Lemma interleavedTie_one_aggregate :
  let first := {| stateID := 1; entityID := voltage; state := "2.0";
                  numericState := number 2; meta := emptyMetadata;
                  lastUpdated := at_ (tenOClock + 5) |} in
  let between := {| stateID := 2; entityID := voltage; state := "unavailable";
                    numericState := nullFloat64; meta := emptyMetadata;
                    lastUpdated := at_ (tenOClock + 40) |} in
  let third := {| stateID := 3; entityID := voltage; state := "4.0";
                  numericState := number 4; meta := emptyMetadata;
                  lastUpdated := at_ (tenOClock + 40) |} in
  shouldAggregateRow first = true
  /\ shouldAggregateRow between = false
  /\ shouldAggregateRow third = true
  /\ entityID third = entityID first
  /\ TruncateMinute (Time_ (lastUpdated third)) = TruncateMinute (Time_ (lastUpdated first))
  /\ runLogged interleavedTie []
     = (inr tt,
        [(batchQuery 2,
          List.app
            (rowArgs {| stateID := 1; entityID := voltage; state := "2";
                        numericState := number 2; meta := emptyMetadata;
                        lastUpdated := at_ (tenOClock + 5) |})
            (rowArgs between))]).
Proof. vm_compute. repeat split. Qed.


(** A run over readings that all have timestamps is not repeated by a second
    run. *)
Example threeReadings_twice :
  let table := snd (runEnergyPoints threeReadings []) in
  List.length table = 2%nat
  /\ runEnergyPoints threeReadings table = (inr tt, table).
Proof. vm_compute. split; reflexivity. Qed.

(** ** The table and its watermarks *)

Module EnergyPointsFacts.

Import EnergyPoints.













End EnergyPointsFacts.

(** ** A run over the table *)

Section TableRun.

Variable ParseFloat : string -> option float64.
Variable FormatFloat : float64 -> string.
Variable Unmarshal : string -> result (gmap string any).
Variable pickString : any -> option string.

Notation "'appendRowT'" := (appendRow EnergyPoints.DB EnergyPoints.ExecContext).
Notation "'flushBatchT'" := (flushBatch EnergyPoints.DB EnergyPoints.ExecContext).
Notation "'loopBodyT'" :=
  (loopBody ParseFloat FormatFloat Unmarshal pickString
     EnergyPoints.DB EnergyPoints.ExecContext).
Notation "'forRowsT'" :=
  (forRows ParseFloat FormatFloat Unmarshal pickString
     EnergyPoints.DB EnergyPoints.ExecContext).
Notation "'FlushT'" := (Flush FormatFloat appendRowT).
Notation "'AddT'" := (Add FormatFloat appendRowT).



















End TableRun.

Section SecondRunClaim.

Variable ParseFloat : string -> option float64.
Variable FormatFloat : float64 -> string.
Variable Unmarshal : string -> result (gmap string any).
Variable pickString : any -> option string.

Notation "'runT'" :=
  (transferEnergyData ParseFloat FormatFloat Unmarshal pickString
     EnergyPoints.DB EnergyPoints.ExecContext EnergyPoints.queryWatermarks).
Notation "'mainLoopT'" :=
  (mainLoop ParseFloat FormatFloat Unmarshal pickString
     EnergyPoints.DB EnergyPoints.ExecContext).



End SecondRunClaim.

(** ** The theorems at the sample data *)

Lemma minute_group_emitted_once_witness :
  Flush GoRef.FormatFloat logEmit (groupOf rowA [rowB], [])
  = (inr tt, (idleAverager, [rowAB]))
  /\ Add GoRef.FormatFloat logEmit rowC (groupOf rowA [rowB], [])
     = (inr tt, (openGroup rowC, [rowAB])).
Proof.
  destruct (minute_group_emitted_once GoRef.FormatFloat logEmit rowA [rowB]
              idleAverager [] eq_refl) as (_ & _ & HF & HA).
  - repeat constructor.
  - repeat constructor.
  - vm_compute. discriminate.
  - split.
    + rewrite HF. vm_compute. reflexivity.
    + rewrite HA; [vm_compute; reflexivity|]. right. vm_compute. discriminate.
Defined.

Lemma representative_rule_witness :
  accumulating (openGroup rowA) /\ sameGroup (openGroup rowA) rowB
  /\ Add GoRef.FormatFloat logEmit rowB (openGroup rowA, [])
     = (inr tt, (groupOf rowA [rowB], []))
  /\ m_stateID (groupOf rowA [rowB]) = 2.
Proof.
  assert (accumulating (openGroup rowA)) as H1 by apply openGroup_accumulating.
  assert (sameGroup (openGroup rowA) rowB) as H2 by (split; reflexivity).
  destruct (representative_rule GoRef.FormatFloat logEmit (openGroup rowA) rowB [] H1 H2)
    as (HA & _).
  split; [exact H1|]. split; [exact H2|]. split; [exact HA | reflexivity].
Defined.

Lemma batch_boundary_witness :
  appendAll LogSink.DB LogSink.ExecContext [rowA; rowB] freshDriver
  = (inr tt, holding [rowA; rowB] freshDriver)
  /\ mysqlDB (holding [rowA; rowB] freshDriver) = []
  /\ mysqlDB (snd (flushBatch LogSink.DB LogSink.ExecContext
                     (holding [rowA; rowB] freshDriver)))
     = [(batchQuery 2, List.app (rowArgs rowA) (rowArgs rowB))].
Proof.
  destruct (batch_boundary LogSink.DB LogSink.ExecContext [rowA; rowB] freshDriver
              eq_refl eq_refl eq_refl) as (_ & Hbelow & _).
  destruct Hbelow as (HA & HB & HF); [cbn; lia|].
  split; [exact HA|]. split; [exact HB|].
  rewrite HF by discriminate. reflexivity.
Defined.

(** 499 rows reach the sink with the 500th, in one statement. *)
Example five_hundred_rows :
  let rows := repeat rowA 500 in
  mysqlDB (snd (appendAll LogSink.DB LogSink.ExecContext (firstn 499 rows) freshDriver)) = []
  /\ rowCount (snd (appendAll LogSink.DB LogSink.ExecContext (firstn 499 rows) freshDriver))
     = 499
  /\ mysqlDB (snd (appendAll LogSink.DB LogSink.ExecContext rows freshDriver))
     = [(batchQuery 500, flat_map rowArgs rows)]
  /\ rowCount (snd (appendAll LogSink.DB LogSink.ExecContext rows freshDriver)) = 0
  /\ args (snd (appendAll LogSink.DB LogSink.ExecContext rows freshDriver)) = [].
Proof. vm_compute. repeat split. Qed.

Lemma group_boundaries_witness :
  accumulating (openGroup rowA)
  /\ Add GoRef.FormatFloat (appendRow LogSink.DB LogSink.ExecContext) rowC
       (openGroup rowA, freshDriver)
     = (inr tt,
        (openGroup rowC,
         buffered LogSink.DB (aggregate GoRef.FormatFloat (openGroup rowA)) freshDriver)).
Proof.
  assert (accumulating (openGroup rowA)) as H1 by apply openGroup_accumulating.
  destruct (group_boundaries GoRef.ParseFloat GoRef.FormatFloat GoRef.Unmarshal
              GoRef.pickString LogSink.DB LogSink.ExecContext
              (openGroup rowA) freshDriver H1) as (HA & _).
  split; [exact H1|]. rewrite HA; [reflexivity|]. right. vm_compute. discriminate.
Defined.

